(** * Restaurant reviews on Firestore: a model of [src/lib/firebase/firestore.js]

    The module under verification is the data layer of a restaurant
    directory: it adds a review to a restaurant inside a transaction that
    also maintains the restaurant's aggregate rating, builds filtered and
    sorted queries, and subscribes observers to realtime snapshots.

    The development has three layers:
    - [JS]: the fragment of JavaScript the module relies on (dynamic values,
      truthiness, [typeof], [+], [/], [Number], property access, spread);
    - [Firestore]: the part of the Firestore SDK the module calls (paths,
      documents, transactions, query constraints, snapshot listeners);
    - the functions of [firestore.js] themselves, one definition per source
      function and under the source's name, followed by their properties.

    The functions embedded are [updateWithRating], [addReviewToRestaurant],
    [applyQueryFilters], [getRestaurantsSnapshot], [getRestaurantById],
    [getRestaurantSnapshotById] and [getReviewsSnapshotByRestaurantId].
    ([storage.js] carries a second copy of the same functions, with the same
    code.) *)

From Stdlib Require Import ZArith Floats Ascii String.
From stdpp Require Import gmap strings list pretty.

Local Open Scope string_scope.

(* ===================================================================== *)
(** * JavaScript values and the operators the module uses                 *)
(* ===================================================================== *)

Module JS.

(** A JavaScript value. Numbers are IEEE 754 doubles, as in the language.
    A function is an opaque callable (see [fn]); a [Date] holds
    its time value in milliseconds; a [Timestamp] is the Firestore class of
    that name (seconds and nanoseconds); an array holds its items; every
    other object is a plain record of own enumerable properties, in
    insertion order. *)
Inductive fn : Type :=
| Callback (h : N)        (* a function of the module's caller, by handle *)
| Unsubscribe (l : nat).  (* what [onSnapshot] returns for listener [l] *)

#[warnings="-register-all"]
Inductive value : Type :=
| VUndefined
| VNull
| VBool (b : bool)
| VNumber (n : float)
| VString (s : string)
| VFunction (f : fn)
| VDate (ms : Z)
| VTimestamp (seconds nanoseconds : Z)
| VArray (items : list value)
| VObject (props : list (string * value)).

Abbreviation object := (list (string * value)).

(** What a [throw] carries: [new Error(msg)] of the module itself, a
    [TypeError] of the language, or an error raised by the Firestore SDK. *)
Inductive error : Type :=
| Error (msg : string)
| TypeError (msg : string)
| FirestoreError (code : string).

(** The completion of a call: it returns a value or throws. For an [async]
    function, [Returned] is the fulfilment value of its promise and [Thrown]
    its rejection reason. *)
Inductive outcome (A : Type) : Type :=
| Returned (a : A)
| Thrown (e : error).
Arguments Returned {A} a.
Arguments Thrown {A} e.

#[global] Instance outcome_ret : MRet outcome := @Returned.
#[global] Instance outcome_bind : MBind outcome := λ A B k m,
  match m with
  | Returned a => k a
  | Thrown e => Thrown e
  end.

(** Sequencing of calls that may throw; the notation fixes the monad, which
    [list]-valued results would otherwise leave ambiguous. *)
Declare Scope outcome_scope.
Delimit Scope outcome_scope with O.
Notation "x ← y ; z" := (mbind (M := outcome) (λ x, z) y)
  (at level 20, y at level 100, z at level 200, only parsing) : outcome_scope.
Local Open Scope outcome_scope.

(** ** Numbers *)

Definition NaN : float := PrimFloat.nan.

(** [ToBoolean] on a number: [+0], [-0] and [NaN] are falsy. *)
Definition number_truthy (n : float) : bool :=
  match Prim2SF n with
  | S754_zero _ | S754_nan => false
  | _ => true
  end.

Definition number_is_nan (n : float) : bool :=
  match Prim2SF n with
  | S754_nan => true
  | _ => false
  end.

(** The double nearest to an integer (exact below 2^53). *)
Definition number_of_Z (z : Z) : float :=
  SF2Prim (binary_normalize prec emax z 0 false).

(** ** Truthiness and [typeof] *)

Definition truthy (v : value) : bool :=
  match v with
  | VUndefined | VNull => false
  | VBool b => b
  | VNumber n => number_truthy n
  | VString s => negb (String.eqb s "")
  | VFunction _ | VDate _ | VTimestamp _ _ | VArray _ | VObject _ => true
  end.

Definition typeof (v : value) : string :=
  match v with
  | VUndefined => "undefined"
  | VNull => "object"
  | VBool _ => "boolean"
  | VNumber _ => "number"
  | VString _ => "string"
  | VFunction _ => "function"
  | VDate _ | VTimestamp _ _ | VArray _ | VObject _ => "object"
  end.

Definition is_object (v : value) : bool :=
  match v with
  | VFunction _ | VDate _ | VTimestamp _ _ | VArray _ | VObject _ => true
  | _ => false
  end.

(** [a || b] *)
Definition js_or (a b : value) : value := if truthy a then a else b.

(** ** Conversions owned by the runtime

    Parsing a string as a number, printing a number, and turning an object
    into a primitive (which runs the object's [valueOf] / [toString]) are
    services of the JavaScript engine. The module under study only calls
    them; they are an interface here. *)
Inductive hint : Type := HintDefault | HintNumber | HintString.

Class Runtime : Type := {
  StringToNumber : string → float;
  NumberToString : float → string;
  ObjectToPrimitive : hint → value → value
}.

Section Conversions.
Context `{Runtime}.

(** [ToPrimitive]: primitives are returned as they are; an object is
    converted by the runtime, and a conversion that yields an object again
    is a [TypeError]. *)
Definition to_primitive (h : hint) (v : value) : outcome value :=
  if is_object v then
    let p := ObjectToPrimitive h v in
    if is_object p
    then Thrown (TypeError "Cannot convert object to primitive value")
    else Returned p
  else Returned v.

(** [ToNumber] on a primitive. *)
Definition prim_to_number (p : value) : float :=
  match p with
  | VUndefined => NaN
  | VNull => 0%float
  | VBool true => 1%float
  | VBool false => 0%float
  | VNumber n => n
  | VString s => StringToNumber s
  | _ => NaN
  end.

(** [ToString] on a primitive. *)
Definition prim_to_string (p : value) : string :=
  match p with
  | VUndefined => "undefined"
  | VNull => "null"
  | VBool true => "true"
  | VBool false => "false"
  | VNumber n => NumberToString n
  | VString s => s
  | _ => ""
  end.

(** [`${v}`], the conversion a template literal applies. *)
Definition to_string (v : value) : outcome string :=
  p ← to_primitive HintString v; mret (prim_to_string p).

(** [Number(v)] *)
Definition Number (v : value) : outcome float :=
  p ← to_primitive HintNumber v; mret (prim_to_number p).

Definition is_string (v : value) : bool :=
  match v with VString _ => true | _ => false end.

(** [a + b]: string concatenation as soon as one operand is (or converts
    to) a string, numeric addition otherwise. *)
Definition js_add (a b : value) : outcome value :=
  pa ← to_primitive HintDefault a;
  pb ← to_primitive HintDefault b;
  if is_string pa || is_string pb
  then mret (VString (prim_to_string pa ++ prim_to_string pb))
  else mret (VNumber (PrimFloat.add (prim_to_number pa) (prim_to_number pb))).

(** [a / b] *)
Definition js_div (a b : value) : outcome value :=
  na ← Number a;
  nb ← Number b;
  mret (VNumber (PrimFloat.div na nb)).
End Conversions.

(** ** Objects *)

(** Own property lookup in a record of properties. *)
Fixpoint obj_get (k : string) (o : object) : value :=
  match o with
  | [] => VUndefined
  | (k', v) :: o' => if String.eqb k k' then v else obj_get k o'
  end.

(** [o[k] = v]: an existing property keeps its position. *)
Fixpoint obj_set (k : string) (v : value) (o : object) : object :=
  match o with
  | [] => [(k, v)]
  | (k', v') :: o' =>
      if String.eqb k k' then (k, v) :: o' else (k', v') :: obj_set k v o'
  end.

(** [{...base, ...src}] for property records. *)
Definition obj_assign (base src : object) : object :=
  fold_left (λ acc kv, obj_set kv.1 kv.2 acc) src base.

Fixpoint string_chars (i : nat) (s : string) : object :=
  match s with
  | EmptyString => []
  | String c s' => (pretty i, VString (String c EmptyString)) :: string_chars (S i) s'
  end.

Fixpoint array_items (i : nat) (l : list value) : object :=
  match l with
  | [] => []
  | v :: l' => (pretty i, v) :: array_items (S i) l'
  end.

(** The own enumerable properties a spread [...v] copies. [undefined],
    [null], numbers, booleans, functions and dates contribute none; a string
    contributes its characters and an array its items, under their
    indices. *)
Definition own_props (v : value) : object :=
  match v with
  | VObject o => o
  | VString s => string_chars 0 s
  | VArray l => array_items 0 l
  | VTimestamp s n => [("seconds", VNumber (number_of_Z s)); ("nanoseconds", VNumber (number_of_Z n))]
  | _ => []
  end.

(** [v.k] for the property names the module reads ([rating], [numRatings],
    [sumRating], [timestamp], [category], [city], [price], [sort]); none of
    them is defined on a built-in prototype, so only own properties count.
    Reading a property of [undefined] or [null] is a [TypeError]. *)
Definition get_prop (v : value) (k : string) : outcome value :=
  match v with
  | VUndefined | VNull =>
      Thrown (TypeError ("Cannot read properties of " ++
                         (if v is VNull then "null" else "undefined") ++
                         " (reading '" ++ k ++ "')"))
  | _ => Returned (obj_get k (own_props v))
  end.

(** [v?.k] *)
Definition get_prop_opt (v : value) (k : string) : value :=
  match v with
  | VUndefined | VNull => VUndefined
  | _ => obj_get k (own_props v)
  end.

(** [f(arg)]: a call of a value. The callee's body belongs to the caller of
    this module; the call is recorded as an event. Calling a value that is
    not a function is a [TypeError]. *)
Inductive call : Type := Call (f : fn) (arg : value).

Definition invoke (f : value) (arg : value) : outcome call :=
  match f with
  | VFunction h => Returned (Call h arg)
  | _ => Thrown (TypeError "cb is not a function")
  end.

End JS.

(* ===================================================================== *)
(** * The Firestore SDK, as far as the module calls it                    *)
(* ===================================================================== *)

Module Firestore.
Import JS.
Local Open Scope outcome_scope.

(** A resource path is its list of segments; documents sit at paths of even
    length, collections at paths of odd length. *)
Abbreviation path := (list string).

(** The database: the data of every document, by document path. *)
Abbreviation store := (gmap (list string) object).

(** ** Paths: [ResourcePath.fromString], [collection], [doc] *)

Fixpoint split_slash (s : string) : list string :=
  match s with
  | EmptyString => [EmptyString]
  | String c s' =>
      if Ascii.eqb c "/"%char then EmptyString :: split_slash s'
      else match split_slash s' with
           | [] => [String c EmptyString]
           | w :: ws => String c w :: ws
           end
  end.

Fixpoint has_double_slash (s : string) : bool :=
  match s with
  | EmptyString => false
  | String c1 s1 =>
      match s1 with
      | EmptyString => false
      | String c2 _ =>
          (Ascii.eqb c1 "/"%char && Ascii.eqb c2 "/"%char) || has_double_slash s1
      end
  end.

Definition nonempty (s : string) : bool := negb (String.eqb s "").

(** One component given to [ResourcePath.fromString]: a string without
    ["//"], split at ["/"], empty pieces dropped. A component that is not
    a string has no [indexOf] / [split] that works, which is a [TypeError]. *)
Definition path_component (v : value) : outcome path :=
  match v with
  | VString s =>
      if has_double_slash s then Thrown (FirestoreError "invalid-argument")
      else Returned (List.filter nonempty (split_slash s))
  | _ => Thrown (TypeError "path.indexOf is not a function")
  end.

Fixpoint fromString (components : list value) : outcome path :=
  match components with
  | [] => Returned []
  | c :: cs => p ← path_component c; ps ← fromString cs; mret (p ++ ps)%list
  end.

(** [validateNonEmptyArgument] *)
Definition validateNonEmptyArgument (v : value) : outcome unit :=
  if truthy v then Returned () else Thrown (FirestoreError "invalid-argument").

(** [collection(db, path, ...segments)]: an odd number of segments. *)
Definition collection (first : value) (more : list value) : outcome path :=
  _ ← validateNonEmptyArgument first;
  p ← fromString (first :: more);
  if Nat.odd (length p) then Returned p
  else Thrown (FirestoreError "invalid-argument").

(** [doc(parent, path, ...segments)] below a collection reference, and
    [doc(db, path, ...segments)] with [parent = []]: an even number of
    segments in all. *)
Definition doc (parent : path) (first : value) (more : list value) : outcome path :=
  _ ← validateNonEmptyArgument first;
  p ← fromString (first :: more);
  if Nat.even (length (parent ++ p)%list) then Returned (parent ++ p)%list
  else Thrown (FirestoreError "invalid-argument").

(** [doc(collectionRef)]: a reference to a new document under an
    identifier the SDK generates ([AutoId.newId()], twenty alphanumeric
    characters); the identifier is an input of the model. *)
Definition doc_auto (parent : path) (autoId : string) : path := (parent ++ [autoId])%list.

(** ** Timestamps *)

Definition MIN_SECONDS : Z := -62135596800.
Definition MAX_SECONDS : Z := 253402300800.

(** [new Timestamp(seconds, nanoseconds)] checks both ranges. *)
Definition new_Timestamp (seconds nanoseconds : Z) : outcome value :=
  if (nanoseconds <? 0)%Z || (1000000000 <=? nanoseconds)%Z
     || (seconds <? MIN_SECONDS)%Z || (MAX_SECONDS <=? seconds)%Z
  then Thrown (FirestoreError "invalid-argument")
  else Returned (VTimestamp seconds nanoseconds).

(** [Timestamp.fromMillis(ms)]: [seconds = floor(ms / 1000)] and
    [nanoseconds = floor((ms - seconds * 1000) * 1e6)]; on the integral
    time values of a [Date] the double arithmetic of the SDK is exact. *)
Definition Timestamp_fromMillis (ms : Z) : outcome value :=
  new_Timestamp (ms `div` 1000)%Z ((ms `mod` 1000) * 1000000)%Z.

(** [Timestamp.fromDate(date)] is [fromMillis(date.getTime())]. *)
Definition Timestamp_fromDate (date : value) : outcome value :=
  match date with
  | VDate ms => Timestamp_fromMillis ms
  | _ => Thrown (TypeError "date.getTime is not a function")
  end.

(** [ts.toDate()] is [new Date(seconds * 1000 + nanoseconds / 1e6)], the
    time value truncated to whole milliseconds. Only a [Timestamp] has the
    method: on [undefined] or [null] the property read fails, on any other
    value [toDate] is not a function. *)
Definition toDate (ts : value) : outcome value :=
  match ts with
  | VTimestamp s n => Returned (VDate ((s * 1000000000 + n) `quot` 1000000)%Z)
  | VUndefined => Thrown (TypeError "Cannot read properties of undefined (reading 'toDate')")
  | VNull => Thrown (TypeError "Cannot read properties of null (reading 'toDate')")
  | _ => Thrown (TypeError "toDate is not a function")
  end.

(** ** Document data accepted by a write

    The SDK parses the data given to [set] and [update]: [undefined] and
    functions are unsupported field values (the default settings, without
    [ignoreUndefinedProperties]); a [Date] is stored as a [Timestamp];
    numbers, [NaN] included, strings, booleans, [null], arrays and nested
    maps are stored as they are. *)
Fixpoint parse_value (v : value) : option value :=
  match v with
  | VUndefined | VFunction _ => None
  | VDate ms =>
      match Timestamp_fromMillis ms with Returned t => Some t | Thrown _ => None end
  | VArray l =>
      (fix items (l : list value) : option (list value) :=
         match l with
         | [] => Some []
         | x :: l' =>
             match parse_value x, items l' with
             | Some x', Some l'' => Some (x' :: l'')
             | _, _ => None
             end
         end) l ≫= λ l', Some (VArray l')
  | VObject o =>
      (fix fields (o : object) : option object :=
         match o with
         | [] => Some []
         | (k, x) :: o' =>
             match parse_value x, fields o' with
             | Some x', Some o'' => Some ((k, x') :: o'')
             | _, _ => None
             end
         end) o ≫= λ o', Some (VObject o')
  | _ => Some v
  end.

Fixpoint parse_fields (o : object) : option object :=
  match o with
  | [] => Some []
  | (k, x) :: o' =>
      match parse_value x, parse_fields o' with
      | Some x', Some o'' => Some ((k, x') :: o'')
      | _, _ => None
      end
  end.

Definition parseData (o : object) : outcome object :=
  match parse_fields o with
  | Some o' => Returned o'
  | None => Thrown (FirestoreError "invalid-argument")
  end.

(** ** Snapshots *)

(** A [DocumentSnapshot]: [snap.id], and the data, absent when the
    document does not exist. *)
Record DocumentSnapshot : Type := {
  snap_id : string;
  snap_data : option object
}.

(** [snap.exists()] *)
Definition snap_exists (s : DocumentSnapshot) : bool :=
  if snap_data s is Some _ then true else false.

(** [snap.data()] *)
Definition data (s : DocumentSnapshot) : value :=
  match snap_data s with
  | Some o => VObject o
  | None => VUndefined
  end.

Definition getDoc (db : store) (p : path) : DocumentSnapshot :=
  {| snap_id := default "" (last p); snap_data := db !! p |}.

(** ** Transactions

    Inside the function given to [runTransaction], [get] reads the database
    and [update] / [set] record writes; the writes are applied together when
    the function has returned, or not at all. A running transaction
    remembers the documents it has read and the writes recorded so far. *)
Inductive write : Type :=
| WUpdate (p : path) (fields : object)
| WSet (p : path) (fields : object).

Record TransactionState : Type := {
  tx_reads : list path;
  tx_writes : list write
}.

Definition record_write (w : write) (st : TransactionState) : TransactionState :=
  {| tx_reads := tx_reads st; tx_writes := (tx_writes st ++ [w])%list |}.

Definition Transaction (A : Type) : Type :=
  store → TransactionState → outcome (A * TransactionState).

#[global] Instance Transaction_ret : MRet Transaction :=
  λ A a _ st, Returned (a, st).
#[global] Instance Transaction_bind : MBind Transaction :=
  λ A B k m db st,
    match m db st with
    | Returned (a, st') => k a db st'
    | Thrown e => Thrown e
    end.

Declare Scope transaction_scope.
Delimit Scope transaction_scope with T.
Notation "x ← y ; z" := (mbind (M := Transaction) (λ x, z) y)
  (at level 20, y at level 100, z at level 200, only parsing) : transaction_scope.

(** An expression evaluated inside the transaction function. *)
Definition lift {A : Type} (o : outcome A) : Transaction A :=
  λ _ st, match o with Returned a => Returned (a, st) | Thrown e => Thrown e end.

(** [transaction.get(ref)]: reads come before writes. *)
Definition transaction_get (p : path) : Transaction DocumentSnapshot :=
  λ db st,
    match tx_writes st with
    | [] => Returned (getDoc db p,
                      {| tx_reads := p :: tx_reads st; tx_writes := [] |})
    | _ => Thrown (FirestoreError "invalid-argument")
    end.

(** [transaction.update(ref, fields)]: the fields are parsed, and a
    document that this transaction has read and found missing cannot be
    updated. *)
Definition transaction_update (p : path) (fields : object) : Transaction unit :=
  λ db st,
    match parseData fields with
    | Returned f =>
        if bool_decide (p ∈ tx_reads st) && negb (snap_exists (getDoc db p))
        then Thrown (FirestoreError "invalid-argument")
        else Returned ((), record_write (WUpdate p f) st)
    | Thrown e => Thrown e
    end.

(** [transaction.set(ref, data)] *)
Definition transaction_set (p : path) (fields : object) : Transaction unit :=
  λ _ st,
    match parseData fields with
    | Returned f => Returned ((), record_write (WSet p f) st)
    | Thrown e => Thrown e
    end.

(** One write applied to the database: [update] merges the given fields
    into a document, which must exist, [set] replaces or creates. *)
Definition apply_write (db : store) (w : write) : option store :=
  match w with
  | WUpdate p fields =>
      match db !! p with
      | Some d => Some (<[p := obj_assign d fields]> db)
      | None => None
      end
  | WSet p fields => Some (<[p := fields]> db)
  end.

Fixpoint commit (db : store) (ws : list write) : option store :=
  match ws with
  | [] => Some db
  | w :: ws' =>
      match apply_write db w with
      | Some db' => commit db' ws'
      | None => None
      end
  end.

(** [runTransaction(db, updateFunction)], run in isolation: the function is
    evaluated against the database, and its writes are committed as one
    unit. A failure of the function or of the commit leaves the database as
    it was and rejects with the error. *)
Definition runTransaction {A : Type} (db : store) (updateFunction : Transaction A)
  : outcome A * store :=
  match updateFunction db {| tx_reads := []; tx_writes := [] |} with
  | Thrown e => (Thrown e, db)
  | Returned (a, st) =>
      match commit db (tx_writes st) with
      | Some db' => (Returned a, db')
      | None => (Thrown (FirestoreError "not-found"), db)
      end
  end.

(** ** Queries *)

(** [where(field, "==", value)], the one operator the module uses, and
    [orderBy(field, direction)] *)
Inductive constraint : Type :=
| WhereEq (field : string) (v : value)
| OrderBy (field direction : string).

(** A query: the collection it reads and the constraints added so far, in
    the order they were added. *)
Record Query : Type := {
  q_collection : path;
  q_constraints : list constraint
}.

(** [query(collectionRef)] *)
Definition query_of (c : path) : Query :=
  {| q_collection := c; q_constraints := [] |}.

(** [query(q, constraint)]: the value of an equality filter is parsed like
    document data. *)
Definition query (q : Query) (c : constraint) : outcome Query :=
  match c with
  | WhereEq f v =>
      match parse_value v with
      | Some v' =>
          Returned {| q_collection := q_collection q;
                      q_constraints := (q_constraints q ++ [WhereEq f v'])%list |}
      | None => Thrown (FirestoreError "invalid-argument")
      end
  | OrderBy f d =>
      Returned {| q_collection := q_collection q;
                  q_constraints := (q_constraints q ++ [OrderBy f d])%list |}
  end.

(** ** Which documents a query returns

    A document is in the result of a query when it lies in the queried
    collection and satisfies every constraint: an equality filter holds
    when the field exists and equals the value; an ordering holds when the
    field exists (Firestore leaves documents without the ordering field out
    of the result). *)
Definition number_eqb (x y : float) : bool :=
  PrimFloat.eqb x y || (number_is_nan x && number_is_nan y).

Fixpoint has_field (f : string) (d : object) : bool :=
  match d with
  | [] => false
  | (k, _) :: d' => String.eqb f k || has_field f d'
  end.

Fixpoint value_eqb (a b : value) : bool :=
  match a, b with
  | VNull, VNull => true
  | VBool x, VBool y => Bool.eqb x y
  | VNumber x, VNumber y => number_eqb x y
  | VString x, VString y => String.eqb x y
  | VTimestamp s1 n1, VTimestamp s2 n2 => (s1 =? s2)%Z && (n1 =? n2)%Z
  | VArray l1, VArray l2 =>
      (fix items (l1 l2 : list value) : bool :=
         match l1, l2 with
         | [], [] => true
         | x :: l1', y :: l2' => value_eqb x y && items l1' l2'
         | _, _ => false
         end) l1 l2
  | VObject o1, VObject o2 =>
      (length o1 =? length o2)%nat &&
      (fix fields (o1 : object) : bool :=
         match o1 with
         | [] => true
         | (k, x) :: o1' => has_field k o2 && value_eqb x (obj_get k o2) && fields o1'
         end) o1
  | _, _ => false
  end.

Definition satisfies (d : object) (c : constraint) : bool :=
  match c with
  | WhereEq f v => has_field f d && value_eqb (obj_get f d) v
  | OrderBy f _ => has_field f d
  end.

Definition in_collection (c p : path) : bool :=
  bool_decide (take (length c) p = c) && (length p =? S (length c))%nat.

Definition matches (q : Query) (p : path) (d : object) : bool :=
  in_collection (q_collection q) p && forallb (satisfies d) (q_constraints q).

Definition result_set (db : store) (q : Query) : store :=
  filter (λ pd, Is_true (matches q pd.1 pd.2)) db.

(** ** Snapshot listeners *)

(** What a listener is attached to, and what the SDK hands to it. *)
Inductive target : Type :=
| DocTarget (p : path)
| QueryTarget (q : Query).

Inductive snapshot : Type :=
| DocSnap (s : DocumentSnapshot)
| QuerySnap (docs : list DocumentSnapshot).

End Firestore.

(* ===================================================================== *)
(** * The module [src/lib/firebase/firestore.js]                          *)
(* ===================================================================== *)

Import JS Firestore.
Local Open Scope outcome_scope.

(** ** The closures the module gives to [onSnapshot]

    Each subscribing function passes an arrow function that closes over the
    observer [cb]; a handler names the function that created it. *)
Inductive handler : Type :=
| RestaurantsHandler (cb : value)      (* in [getRestaurantsSnapshot] *)
| RestaurantByIdHandler (cb : value)   (* in [getRestaurantSnapshotById] *)
| ReviewsHandler (cb : value).         (* in [getReviewsSnapshotByRestaurantId] *)

Record listener : Type := {
  l_target : target;
  l_handler : handler
}.

Inductive log_entry : Type :=
| Log (msg : string) (arg : option value)   (* [console.log(msg, arg)] *)
| LogError (msg : string) (e : error).      (* [console.error(msg, error)] *)

(** ** The world the module runs in *)
Record World : Type := {
  db : store;                   (* the Firestore database *)
  listeners : list listener;    (* the listeners [onSnapshot] has attached *)
  console : list log_entry;     (* what was written to the console *)
  clock : Z;                    (* the system clock read by [new Date()], in ms *)
  newId : nat → string;         (* the identifiers [AutoId.newId()] produces *)
  issued : nat                  (* how many of them were produced *)
}.

Definition set_db (d : store) (w : World) : World :=
  {| db := d; listeners := listeners w; console := console w;
     clock := clock w; newId := newId w; issued := issued w |}.

(** A computation of the module: it may change the world, and it returns or
    throws; the world survives a throw. *)
Definition IO (A : Type) : Type := World → outcome A * World.

#[global] Instance IO_ret : MRet IO := λ A a w, (Returned a, w).
#[global] Instance IO_bind : MBind IO := λ A B k m w,
  match m w with
  | (Returned a, w') => k a w'
  | (Thrown e, w') => (Thrown e, w')
  end.

Declare Scope io_scope.
Delimit Scope io_scope with IO.
Notation "x ← y ; z" := (mbind (M := IO) (λ x, z) y)
  (at level 20, y at level 100, z at level 200, only parsing) : io_scope.

(** [throw e] *)
Definition throw {A : Type} (e : error) : IO A := λ w, (Thrown e, w).

(** [try { body } catch (error) { handle error }] *)
Definition try_catch {A : Type} (body : IO A) (handle : error → IO A) : IO A :=
  λ w, match body w with
       | (Thrown e, w') => handle e w'
       | r => r
       end.

(** An expression without effect on the world. *)
Definition eval {A : Type} (o : outcome A) : IO A := λ w, (o, w).

Definition console_log (msg : string) (arg : option value) : IO unit :=
  λ w, (Returned (),
        {| db := db w; listeners := listeners w;
           console := (console w ++ [Log msg arg])%list;
           clock := clock w; newId := newId w; issued := issued w |}).

Definition console_error (msg : string) (e : error) : IO unit :=
  λ w, (Returned (),
        {| db := db w; listeners := listeners w;
           console := (console w ++ [LogError msg e])%list;
           clock := clock w; newId := newId w; issued := issued w |}).

(** [new Date()], given the reading of the clock. *)
Definition new_Date (now : Z) : value := VDate now.

(** The reading of the system clock, for code that evaluates [new Date()]. *)
Definition read_clock : IO Z := λ w, (Returned (clock w), w).

(** [doc(collectionRef)] with a generated identifier. *)
Definition doc_new (parent : path) : IO path :=
  λ w, (Returned (doc_auto parent (newId w (issued w))),
        {| db := db w; listeners := listeners w; console := console w;
           clock := clock w; newId := newId w; issued := S (issued w) |}).

(** [await runTransaction(db, transaction => f(transaction))] *)
Definition run_transaction {A : Type} (f : Transaction A) : IO A :=
  λ w, let '(r, d) := runTransaction (db w) f in (r, set_db d w).

(** [await getDoc(ref)] *)
Definition get_doc (p : path) : IO DocumentSnapshot :=
  λ w, (Returned (getDoc (db w) p), w).

(** [onSnapshot(target, handler)]: attaches the listener and returns the
    function that detaches it. *)
Definition onSnapshot (t : target) (h : handler) : IO value :=
  λ w, (Returned (VFunction (Unsubscribe (length (listeners w)))),
        {| db := db w;
           listeners := (listeners w ++ [{| l_target := t; l_handler := h |}])%list;
           console := console w;
           clock := clock w; newId := newId w; issued := issued w |}).

Section Review.
Context `{Runtime}.

(** Line 62: [data?.numRatings ? data.numRatings + 1 : 1] *)
Definition newNumRatings (data : value) : outcome value :=
  if truthy (get_prop_opt data "numRatings")
  then n ← get_prop data "numRatings"; js_add n (VNumber 1)
  else Returned (VNumber 1).

(** Line 64: [(data?.sumRating || 0) + Number(review.rating)] *)
Definition newSumRating (data review : value) : outcome value :=
  let current := js_or (get_prop_opt data "sumRating") (VNumber 0) in
  rating ← get_prop review "rating";
  r ← Number rating;
  js_add current (VNumber r).

(** Line 65: [newSumRating / newNumRatings] *)
Definition newAverage (newSumRating newNumRatings : value) : outcome value :=
  js_div newSumRating newNumRatings.

(** [updateWithRating(transaction, docRef, newRatingDocument, review)],
    lines 51-77. [new Date()] on line 75 reads the clock; its reading is
    the argument [now]. *)
Definition updateWithRating (now : Z) (docRef newRatingDocument : path)
    (review : value) : Transaction unit :=
  (restaurant ← transaction_get docRef;
   let data := Firestore.data restaurant in
   numRatings ← lift (newNumRatings data);
   sumRating ← lift (newSumRating data review);
   avgRating ← lift (newAverage sumRating numRatings);
   _ ← transaction_update docRef
         [("numRatings", numRatings);
          ("sumRating", sumRating);
          ("avgRating", avgRating)];
   timestamp ← lift (Timestamp_fromDate (new_Date now));
   transaction_set newRatingDocument
     (obj_set "timestamp" timestamp (obj_assign [] (own_props review))))%T.

(** [addReviewToRestaurant(db, restaurantId, review)], lines 92-118. *)
Definition addReviewToRestaurant (restaurantId review : value) : IO value :=
  (if negb (truthy restaurantId)
   then throw (Error "No restaurant ID has been provided.")
   else
   if negb (truthy review)
   then throw (Error "A valid review has not been provided.")
   else
   try_catch
     (docRef ← eval (c ← collection (VString "restaurants") [];
                     doc c restaurantId [])%O;
      ratings ← eval (s ← to_string restaurantId;
                      collection (VString ("restaurants/" ++ s ++ "/ratings")) [])%O;
      newRatingDocument ← doc_new ratings;
      now ← read_clock;
      _ ← run_transaction
            (updateWithRating now docRef newRatingDocument review);
      mret VUndefined)
     (λ error,
       _ ← console_error
             "There was an error adding the rating to the restaurant" error;
       throw error))%IO.
End Review.

(** [v === "literal"] *)
Definition strict_eq_string (v : value) (s : string) : bool :=
  match v with
  | VString s' => String.eqb s' s
  | _ => false
  end.

(** [applyQueryFilters(q, { category, city, price, sort })], lines 121-143.
    The parameter pattern reads the four properties of the filters object. *)
Definition applyQueryFilters (q : Query) (filters : value) : outcome Query :=
  category ← get_prop filters "category";
  city ← get_prop filters "city";
  price ← get_prop filters "price";
  sort ← get_prop filters "sort";
  q ← (if truthy category then query q (WhereEq "category" category)
       else Returned q);
  q ← (if truthy city then query q (WhereEq "city" city)
       else Returned q);
  q ← (if truthy price then query q (WhereEq "price" price)
       else Returned q);
  q ← (if strict_eq_string sort "Rating" || negb (truthy sort)
       then query q (OrderBy "avgRating" "desc")
       else if strict_eq_string sort "Review"
       then query q (OrderBy "numRatings" "desc")
       else Returned q);
  Returned q.

(** The object every snapshot callback builds from a document,
    [{ id: doc.id, ...doc.data(), timestamp: doc.data().timestamp.toDate() }]
    (lines 181-186, 235-239, 286-291). *)
Definition plain_doc (d : DocumentSnapshot) : outcome value :=
  let base := obj_assign [("id", VString (snap_id d))] (own_props (data d)) in
  ts ← get_prop (data d) "timestamp";
  date ← toDate ts;
  Returned (VObject (obj_set "timestamp" date base)).

(** [docs.map(f)] for an [f] that may throw. *)
Fixpoint map_docs (f : DocumentSnapshot → outcome value)
    (docs : list DocumentSnapshot) : outcome (list value) :=
  match docs with
  | [] => Returned []
  | d :: ds => v ← f d; vs ← map_docs f ds; Returned (v :: vs)
  end.

(** The body of a snapshot callback, run on the snapshot the SDK delivers;
    it returns the calls it made to the observer. A collection listener
    receives query snapshots and a document listener document snapshots. *)
Definition run_handler (h : handler) (s : snapshot) : outcome (list call) :=
  match h, s with
  | RestaurantsHandler cb, QuerySnap docs
  | ReviewsHandler cb, QuerySnap docs =>
      results ← map_docs plain_doc docs;
      c ← invoke cb (VArray results);
      Returned [c]
  | RestaurantByIdHandler cb, DocSnap docSnap =>
      if negb (snap_exists docSnap) then
        c ← invoke cb VNull;
        Returned [c]
      else
        data ← plain_doc docSnap;
        c ← invoke cb data;
        Returned [c]
  | _, _ => Thrown (TypeError "snapshot of the wrong kind")
  end.

(** What the SDK does for a document listener when the database is [d]:
    it hands the current snapshot of the target to the callback. *)
Definition fire_doc (l : listener) (d : store) : outcome (list call) :=
  match l_target l with
  | DocTarget p => run_handler (l_handler l) (DocSnap (getDoc d p))
  | QueryTarget _ => Returned []
  end.

(** [getRestaurantsSnapshot(cb, filters = {})], lines 168-192. *)
Definition getRestaurantsSnapshot (cb filters : value) : IO value :=
  (if negb (String.eqb (typeof cb) "function") then
     _ ← console_log "Error: The callback parameter is not a function" None;
     mret VUndefined
   else
     let filters := if filters is VUndefined then VObject [] else filters in
     q ← eval (c ← collection (VString "restaurants") [];
               applyQueryFilters (query_of c) filters)%O;
     onSnapshot (QueryTarget q) (RestaurantsHandler cb))%IO.

(** [getRestaurantById(db, restaurantId)], lines 195-210. *)
Definition getRestaurantById (restaurantId : value) : IO value :=
  (if negb (truthy restaurantId) then
     _ ← console_log "Error: Invalid ID received: " (Some restaurantId);
     mret VUndefined
   else
     docRef ← eval (doc [] (VString "restaurants") [restaurantId]);
     docSnap ← get_doc docRef;
     eval (let base := obj_assign [] (own_props (data docSnap)) in
           ts ← get_prop (data docSnap) "timestamp";
           date ← toDate ts;
           Returned (VObject (obj_set "timestamp" date base)))%O)%IO.

(** [getRestaurantSnapshotById(restaurantId, cb)], lines 220-242. *)
Definition getRestaurantSnapshotById (restaurantId cb : value) : IO value :=
  (if negb (truthy restaurantId) then
     _ ← console_log "Error: Invalid restaurantId received: " (Some restaurantId);
     mret VUndefined
   else
     restaurantRef ← eval (doc [] (VString "restaurants") [restaurantId]);
     onSnapshot (DocTarget restaurantRef) (RestaurantByIdHandler cb))%IO.

(** [getReviewsSnapshotByRestaurantId(restaurantId, cb)], lines 271-295. *)
Definition getReviewsSnapshotByRestaurantId (restaurantId cb : value) : IO value :=
  (if negb (truthy restaurantId) then
     _ ← console_log "Error: Invalid restaurantId received: " (Some restaurantId);
     mret VUndefined
   else
     q ← eval (c ← collection (VString "restaurants")
                     [restaurantId; VString "ratings"];
               query (query_of c) (OrderBy "timestamp" "desc"))%O;
     onSnapshot (QueryTarget q) (ReviewsHandler cb))%IO.

(** ** A runtime to run the model on examples

    It parses strings of decimal digits, prints with a fixed text, and
    converts every object to ["[object Object]"], as an engine does for a
    plain object. The examples below convert nothing else. *)
Fixpoint digits_value (acc : Z) (s : string) : option Z :=
  match s with
  | EmptyString => Some acc
  | String c s' =>
      let n := Z.of_nat (nat_of_ascii c) in
      if (48 <=? n)%Z && (n <=? 57)%Z
      then digits_value (acc * 10 + (n - 48))%Z s'
      else None
  end.

Definition exampleRuntime : Runtime := {|
  StringToNumber s :=
    match digits_value 0 s with
    | Some z => number_of_Z z
    | None => NaN
    end;
  NumberToString _ := "NaN";
  ObjectToPrimitive _ _ := VString "[object Object]"
|}.

Definition exampleIds (n : nat) : string := "review" ++ pretty n.

Definition exampleWorld (d : store) (now : Z) : World :=
  {| db := d; listeners := []; console := []; clock := now;
     newId := exampleIds; issued := 0 |}.

(* ===================================================================== *)
(** * The rest of [firestore.js]                                          *)
(* ===================================================================== *)

(** ** Further calls of the SDK *)

(** [await updateDoc(ref, fields)]: one write outside a transaction. The
    fields are parsed like every document data, and the document must
    exist. *)
Definition updateDoc (p : path) (fields : object) : IO unit :=
  λ w,
    match parseData fields with
    | Thrown e => (Thrown e, w)
    | Returned f =>
        match apply_write (db w) (WUpdate p f) with
        | Some d => (Returned (), set_db d w)
        | None => (Thrown (FirestoreError "not-found"), w)
        end
    end.

(** [await addDoc(collectionRef, data)]: a reference with a generated
    identifier is made first, then the data, which must be a plain object,
    is parsed, and the document is created on condition that it does not
    exist yet. The call resolves to the new reference. *)
Definition document_data (data : value) : outcome object :=
  match data with
  | VObject o => parseData o
  | _ => Thrown (FirestoreError "invalid-argument")
  end.

Definition addDoc (coll : path) (data : value) : IO path :=
  (docRef ← doc_new coll;
   fields ← eval (document_data data);
   λ w, match db w !! docRef with
        | Some _ => (Thrown (FirestoreError "already-exists"), w)
        | None => (Returned docRef, set_db (<[docRef := fields]> (db w)) w)
        end)%IO.

(** The backend that executes a query. In which order it lists the
    documents is its own business (the ordering clauses, then the document
    name); what the module relies on is that it lists documents of the
    database that the query selects, each as a snapshot of its data. *)
Class QueryEngine : Type := {
  execute : store → Query → list DocumentSnapshot;
  execute_sound : ∀ (d : store) (q : Query) (s : DocumentSnapshot),
    s ∈ execute d q →
    ∃ p o, d !! p = Some o ∧ matches q p o = true ∧ s = getDoc d p
}.

(** [(await getDocs(q)).docs] *)
Definition getDocs `{QueryEngine} (q : Query) : IO (list DocumentSnapshot) :=
  λ w, (Returned (execute (db w) q), w).

(** ** [updateRestaurantImageReference], lines 25-35

    The reference [doc] returns is an object, so the test on line 32 holds
    whenever it is reached. *)
Definition updateRestaurantImageReference (restaurantId publicImageUrl : value)
  : IO value :=
  (restaurantRef ← eval (c ← collection (VString "restaurants") [];
                         doc c restaurantId [])%O;
   _ ← updateDoc restaurantRef [("photo", publicImageUrl)];
   mret VUndefined)%IO.

(** ** [getRestaurants], lines 146-163

    The first parameter is declared [db = db]: when the argument is
    [undefined] the initializer reads the parameter itself, which has no
    value yet, and the call is rejected with a [ReferenceError]. *)
Inductive db_argument : Type :=
| DbInstance     (* a Firestore instance *)
| DbUndefined.   (* [undefined], or no argument *)

(** How a call with parameter initializers ends. *)
Inductive completion (A : Type) : Type :=
| Settled (o : outcome A)
| ReferenceError (msg : string).
Arguments Settled {A} o.
Arguments ReferenceError {A} msg.

(** [results.docs.map(doc => ({ id: doc.id, ...doc.data(), timestamp: ... }))] *)
Definition plain_docs (docs : list DocumentSnapshot) : outcome value :=
  results ← map_docs plain_doc docs; Returned (VArray results).

Definition getRestaurants `{QueryEngine} (dbArg : db_argument) (filters : value)
  : World → completion value * World :=
  λ w,
    match dbArg with
    | DbUndefined =>
        (ReferenceError "Cannot access 'db' before initialization", w)
    | DbInstance =>
        let filters := if filters is VUndefined then VObject [] else filters in
        let '(r, w') :=
          (q ← eval (c ← collection (VString "restaurants") [];
                     applyQueryFilters (query_of c) filters)%O;
           results ← getDocs q;
           eval (plain_docs results))%IO w in
        (Settled r, w')
    end.

(** ** [getReviewsByRestaurantId], lines 245-268 *)
Definition getReviewsByRestaurantId `{QueryEngine} (restaurantId : value)
  : IO value :=
  (if negb (truthy restaurantId) then
     _ ← console_log "Error: Invalid restaurantId received: " (Some restaurantId);
     mret VUndefined
   else
     q ← eval (c ← collection (VString "restaurants")
                     [restaurantId; VString "ratings"];
               query (query_of c) (OrderBy "timestamp" "desc"))%O;
     results ← getDocs q;
     eval (plain_docs results))%IO.

(** ** [addFakeRestaurantsAndReviews], lines 298-320

    [generateFakeRestaurantsAndReviews] is not part of the module; the
    array it resolves to is the argument [data]: for every restaurant its
    data and the list of its ratings. *)
Fixpoint add_ratings (restaurant : path) (ratingsData : list value) : IO unit :=
  match ratingsData with
  | [] => mret ()
  | ratingData :: rest =>
      (ratings ← eval (collection (VString "restaurants")
                         [VString (default "" (last restaurant)); VString "ratings"]);
       _ ← addDoc ratings ratingData;
       add_ratings restaurant rest)%IO
  end.

Fixpoint add_fake (data : list (value * list value)) : IO unit :=
  match data with
  | [] => mret ()
  | (restaurantData, ratingsData) :: rest =>
      (_ ← try_catch
             (docRef ← (restaurants ← eval (collection (VString "restaurants") []);
                        addDoc restaurants restaurantData);
              add_ratings docRef ratingsData)
             (λ e,
               _ ← console_log "There was an error adding the document" None;
               console_error "Error adding document: " e);
       add_fake rest)%IO
  end.

Definition addFakeRestaurantsAndReviews (data : list (value * list value))
  : IO value :=
  (_ ← add_fake data; mret VUndefined)%IO.

(* ===================================================================== *)
(** * The callers: [storage.js], [Restaurant.jsx], [ReviewSummary.jsx]    *)
(* ===================================================================== *)

(** ** The services the callers use

    Firebase Storage, the authentication helper, the environment and the
    text-generation client are outside the repository. Storage decides
    whether an upload succeeds and which URL a file has; the generation
    client answers a prompt with a text or fails. A function value has a
    [name] of its own, which the one who wrote it chose. *)
Class Services : Type := {
  functionName : fn → string;
  uploadBytesResumable : string → value → outcome unit;
  getDownloadURL : string → outcome string;
  getAuthenticatedAppForUser : outcome unit;
  GEMINI_API_KEY : value;
  generate : string → outcome value
}.

(** The world of a caller: the world of the module, and the files that
    were uploaded, by path. *)
Record Site : Type := {
  site_world : World;
  site_uploads : list (string * value)
}.

Definition App (A : Type) : Type := Site → outcome A * Site.

#[global] Instance App_ret : MRet App := λ A a s, (Returned a, s).
#[global] Instance App_bind : MBind App := λ A B k m s,
  match m s with
  | (Returned a, s') => k a s'
  | (Thrown e, s') => (Thrown e, s')
  end.

Declare Scope app_scope.
Delimit Scope app_scope with App.
Notation "x ← y ; z" := (mbind (M := App) (λ x, z) y)
  (at level 20, y at level 100, z at level 200, only parsing) : app_scope.

(** A call into the module. *)
Definition in_world {A : Type} (m : IO A) : App A :=
  λ s, let '(r, w) := m (site_world s) in
       (r, {| site_world := w; site_uploads := site_uploads s |}).

(** An expression without effect. *)
Definition pure {A : Type} (o : outcome A) : App A := λ s, (o, s).

(** [try { body } catch (error) { handle error }] in a caller. *)
Definition app_try {A : Type} (body : App A) (handle : error → App A) : App A :=
  λ s, match body s with
       | (Thrown e, s') => handle e s'
       | r => r
       end.

(** [await uploadBytesResumable(ref(storage, filePath), image)] *)
Definition upload `{Services} (filePath : string) (image : value) : App unit :=
  λ s, match uploadBytesResumable filePath image with
       | Returned _ =>
           (Returned (),
            {| site_world := site_world s;
               site_uploads := (site_uploads s ++ [(filePath, image)])%list |})
       | Thrown e => (Thrown e, s)
       end.

Section Callers.
Context `{Runtime} `{Services} `{QueryEngine}.

(** ** [storage.js] *)

(** [image.name] *)
Definition image_name (image : value) : outcome value :=
  match image with
  | VFunction f => Returned (VString (functionName f))
  | _ => get_prop image "name"
  end.

(** [!image || !image.name], line 13 *)
Definition no_image (image : value) : outcome bool :=
  if negb (truthy image) then Returned true
  else name ← image_name image; Returned (negb (truthy name)).

(** [uploadImage(restaurantId, image)], lines 26-32 *)
Definition filePath (restaurantId image : value) : outcome string :=
  id ← to_string restaurantId;
  name ← image_name image;
  name ← to_string name;
  Returned ("images/" ++ id ++ "/" ++ name).

Definition uploadImage (restaurantId image : value) : App string :=
  (newImageRef ← pure (filePath restaurantId image);
   _ ← upload newImageRef image;
   pure (getDownloadURL newImageRef))%App.

(** [updateRestaurantImage(restaurantId, image)], lines 7-24 *)
Definition updateRestaurantImage (restaurantId image : value) : App value :=
  app_try
    (_ ← pure (if negb (truthy restaurantId)
               then Thrown (Error "No restaurant ID has been provided.")
               else Returned ());
     _ ← pure (invalid ← no_image image;
               if invalid : bool
               then Thrown (Error "A valid image has not been provided.")
               else Returned ())%O;
     publicImageUrl ← uploadImage restaurantId image;
     _ ← in_world (updateRestaurantImageReference restaurantId
                     (VString publicImageUrl));
     mret (VString publicImageUrl))%App
    (λ error,
      (_ ← in_world (console_error "Error processing request:" error);
       mret VUndefined)%App).

(** ** [Restaurant.jsx] *)

(** [handleRestaurantImage(target)], lines 33-41, in a component whose
    props and state hold [id] and [restaurantDetails]. The function ends by
    setting the state; the state after the call is the result here. *)
Definition first_file (target : value) : outcome value :=
  files ← get_prop target "files";
  if truthy files then get_prop files "0" else Returned VNull.

Definition handleRestaurantImage (id restaurantDetails target : value) : App value :=
  (image ← pure (first_file target);
   if negb (truthy image) then mret restaurantDetails
   else
     imageURL ← updateRestaurantImage id image;
     mret (VObject (obj_set "photo" imageURL
                      (obj_assign [] (own_props restaurantDetails)))))%App.

(** [onChange(value, name)], lines 29-31: the review state after the
    call. *)
Definition onChange (review : value) (v : value) (name : string) : value :=
  VObject (obj_set name v (obj_assign [] (own_props review))).

(** ** [ReviewSummary.jsx] *)

(** What [GeminiSummary] renders: the summary block with the generated
    text, or the error paragraph. *)
Inductive element : Type :=
| SummaryBlock (text : value)
| ErrorParagraph.

(** [array.join(separator)]: [undefined] and [null] items count as empty
    strings. *)
Definition join_item (v : value) : outcome string :=
  match v with
  | VUndefined | VNull => Returned ""
  | _ => to_string v
  end.

Fixpoint join (separator : string) (items : list value) : outcome string :=
  match items with
  | [] => Returned ""
  | [v] => join_item v
  | v :: rest =>
      s ← join_item v; r ← join separator rest; Returned (s ++ separator ++ r)
  end.

(** [reviews.map((review) => review.text)] *)
Fixpoint review_texts (reviews : list value) : outcome (list value) :=
  match reviews with
  | [] => Returned []
  | review :: rest =>
      t ← get_prop review "text"; ts ← review_texts rest; Returned (t :: ts)
  end.

Definition reviewSeparator : string := "@".

(** The template literal of lines 15-21. *)
Definition prompt_text (reviews : string) : string :=
  "
    Based on the following restaurant reviews, 
    where each review is separated by a '" ++ reviewSeparator ++ "' character, 
    create a one-sentence summary of what people think of the restaurant. 

    Here are the reviews: " ++ reviews ++ "
  ".

Definition build_prompt (reviews : value) : outcome string :=
  match reviews with
  | VArray items =>
      texts ← review_texts items;
      joined ← join reviewSeparator texts;
      Returned (prompt_text joined)
  | VUndefined =>
      Thrown (TypeError "Cannot read properties of undefined (reading 'map')")
  | VNull =>
      Thrown (TypeError "Cannot read properties of null (reading 'map')")
  | _ => Thrown (TypeError "reviews.map is not a function")
  end.

(** [GeminiSummary({ restaurantId })], lines 7-47. [console.error(e)] has
    no message of its own; it is recorded with an empty one. *)
Definition GeminiSummary (restaurantId : value) : App element :=
  (_ ← pure getAuthenticatedAppForUser;
   reviews ← in_world (getReviewsByRestaurantId restaurantId);
   prompt ← pure (build_prompt reviews);
   app_try
     (_ ← pure (if negb (truthy GEMINI_API_KEY)
                then Thrown (Error ("GEMINI_API_KEY not set. Set it with "
                                    ++ String "034"%char
                                         "firebase apphosting:secrets:set GEMINI_API_KEY"
                                    ++ String "034"%char EmptyString))
                else Returned ());
      text ← pure (generate prompt);
      mret (SummaryBlock text))
     (λ e,
       _ ← in_world (console_error "" e);
       mret ErrorParagraph))%App.
End Callers.

(** Services to run examples: every upload succeeds, no API key is set. *)
Definition exampleServices : Services := {|
  functionName _ := "";
  uploadBytesResumable _ _ := Returned ();
  getDownloadURL p := Returned ("https://storage.example/" ++ p);
  getAuthenticatedAppForUser := Returned ();
  GEMINI_API_KEY := VUndefined;
  generate _ := Returned (VString "People like it.")
|}.

(** An engine to run examples: the selected documents in the order of
    their paths. *)
Definition example_execute (d : store) (q : Query) : list DocumentSnapshot :=
  (λ pd, getDoc d pd.1) <$> map_to_list (result_set d q).

(* ===================================================================== *)
(** * Notions used in the statements                                     *)
(* ===================================================================== *)

(** The number an aggregate field holds, a missing field counting as 0 and
    a zero of either sign being the number 0. A field that holds [NaN] or a
    value that is not a number has no reading: [x || 0] and
    [x ? x + 1 : 1] replace [NaN], which is falsy, by a constant. *)
Definition stored_number (v : value) : option float :=
  match v with
  | VUndefined | VNull => Some 0%float
  | VNumber x =>
      match Prim2SF x with
      | S754_nan => None
      | S754_zero _ => Some 0%float
      | _ => Some x
      end
  | _ => None
  end.

(** An aggregate field that is missing or holds a number of any kind. *)
Definition number_or_missing (v : value) : bool :=
  match v with
  | VUndefined | VNull | VNumber _ => true
  | _ => false
  end.

(** The clause one filter option contributes: none when the option is
    falsy, one equality filter otherwise. *)
Definition filter_clause (field : string) (v : value) : outcome (list constraint) :=
  if truthy v then
    match parse_value v with
    | Some v' => Returned [WhereEq field v']
    | None => Thrown (FirestoreError "invalid-argument")
    end
  else Returned [].

(** The ordering the [sort] option contributes. *)
Definition sort_clause (sort : value) : list constraint :=
  if strict_eq_string sort "Rating" || negb (truthy sort)
  then [OrderBy "avgRating" "desc"]
  else if strict_eq_string sort "Review"
  then [OrderBy "numRatings" "desc"]
  else [].

(** A query with further constraints. *)
Definition extend (q : Query) (cs : list constraint) : Query :=
  {| q_collection := q_collection q;
     q_constraints := (q_constraints q ++ cs)%list |}.

(** Whether a constraint is an ordering. *)
Definition is_ordering (c : constraint) : bool :=
  match c with OrderBy _ _ => true | WhereEq _ _ => false end.

(** The ordering clauses of a query, which fix the order of its result. *)
Definition orderings (q : Query) : list constraint :=
  List.filter is_ordering (q_constraints q).

(** Whether a document passes the filter an option asks for. *)
Definition filter_holds (field : string) (v : value) (d : object) : bool :=
  if truthy v then
    match parse_value v with
    | Some v' => has_field field d && value_eqb (obj_get field d) v'
    | None => false
    end
  else true.

(** The world after [console.log(msg, arg)]. *)
Definition log (msg : string) (arg : option value) (w : World) : World :=
  (console_log msg arg w).2.

(** ** Examples *)

(** The restaurant of the specification's end-to-end example. *)
Definition example_restaurant : object :=
  [("numRatings", VNumber 2); ("sumRating", VNumber 7); ("avgRating", VNumber 3.5)].

(** The review of the end-to-end example. *)
Definition example_review : object := [("rating", VNumber 5)].

(** A database that holds this restaurant, and a world around it. *)
Definition example_db : store := {[ ["restaurants"; "R"] := example_restaurant ]}.

Definition example_world : World := exampleWorld example_db 1700000000123.

(** A review without a rating. *)
Definition example_review_without_rating : object := [("text", VString "good")].

(** A restaurant with a creation timestamp, and a database that holds it. *)
Definition example_restaurant_dated : object :=
  [("name", VString "Cafe"); ("timestamp", VTimestamp 1700000000 0)].

Definition example_db_dated : store :=
  {[ ["restaurants"; "R"] := example_restaurant_dated ]}.

(* ===================================================================== *)
(** * Properties                                                          *)
(* ===================================================================== *)

(** ** Numbers *)

Lemma add_NaN_r (x : float) : PrimFloat.add x NaN = NaN.
Proof.
  apply Prim2SF_inj. rewrite add_spec.
  change (Prim2SF NaN) with S754_nan.
  unfold SF64add, SFadd. destruct (Prim2SF x); reflexivity.
Qed.

Lemma div_NaN_l (x : float) : PrimFloat.div NaN x = NaN.
Proof.
  apply Prim2SF_inj. rewrite div_spec.
  change (Prim2SF NaN) with S754_nan. reflexivity.
Qed.

(** ** Objects *)

Lemma obj_get_set_eq (k : string) (v : value) (o : object) :
  obj_get k (obj_set k v o) = v.
Proof.
  induction o as [|[k' v'] o IH]; simpl.
  - by rewrite String.eqb_refl.
  - destruct (String.eqb k k') eqn:E; simpl; rewrite ?E; [by rewrite String.eqb_refl | done].
Qed.

Lemma obj_get_set_ne (k k' : string) (v : value) (o : object) :
  k ≠ k' → obj_get k (obj_set k' v o) = obj_get k o.
Proof.
  intros Hne. induction o as [|[k'' v''] o IH]; simpl.
  - destruct (String.eqb_spec k k'); [done | reflexivity].
  - destruct (String.eqb_spec k' k'') as [->|]; simpl.
    + destruct (String.eqb_spec k k''); [done | reflexivity].
    + destruct (String.eqb_spec k k''); [reflexivity | apply IH].
Qed.

Lemma has_field_set_eq (k : string) (v : value) (o : object) :
  has_field k (obj_set k v o) = true.
Proof.
  induction o as [|[k' v'] o IH]; simpl.
  - by rewrite String.eqb_refl.
  - destruct (String.eqb k k') eqn:E; simpl; rewrite ?E; [by rewrite String.eqb_refl | done].
Qed.

Lemma obj_get_no_field (k : string) (o : object) :
  has_field k o = false → obj_get k o = VUndefined.
Proof.
  induction o as [|[k' v'] o IH]; simpl; [done|].
  destruct (String.eqb k k'); simpl; [done | apply IH].
Qed.

(** ** Parsed document data *)

Lemma parse_fields_get (k : string) (o o' : object) (v' : value) :
  parse_fields o = Some o' →
  has_field k o = true →
  parse_value (obj_get k o) = Some v' →
  obj_get k o' = v'.
Proof.
  revert o'. induction o as [|[k' x] o IH]; intros o' Hp Hf Hv; [done|].
  simpl in Hp, Hf, Hv.
  destruct (parse_value x) as [x'|] eqn:Ex; [|done].
  destruct (parse_fields o) as [o''|] eqn:Eo; [|done].
  injection Hp as <-. simpl.
  destruct (String.eqb k k'); simpl in *.
  - congruence.
  - by apply IH.
Qed.

(** ** Paths *)

Lemma split_slash_nonnil (s : string) : split_slash s ≠ [].
Proof.
  destruct s as [|c s]; simpl; [done|].
  destruct (Ascii.eqb c "/"); [done|].
  destruct (split_slash s); done.
Qed.

Lemma split_slash_app (a b : string) :
  split_slash (a ++ String "/" b) = (split_slash a ++ split_slash b)%list.
Proof.
  induction a as [|c a IH]; simpl; [done|].
  destruct (Ascii.eqb c "/"); rewrite IH; [done|].
  pose proof (split_slash_nonnil a) as Hn.
  destruct (split_slash a); done.
Qed.

Lemma split_ratings_path (id : string) :
  List.filter nonempty (split_slash ("restaurants/" ++ id ++ "/ratings"))
  = ("restaurants" :: List.filter nonempty (split_slash id) ++ ["ratings"])%list.
Proof.
  change ("restaurants/" ++ id ++ "/ratings")
    with ("restaurants" ++ String "/" (id ++ String "/" "ratings")).
  rewrite !split_slash_app, !List.filter_app. reflexivity.
Qed.

(** The collection a review is created in lies below the restaurant's
    document: [restaurants/<id>/ratings]. *)
Lemma ratings_under_restaurant (id : string) (docRef ratings : path) :
  doc ["restaurants"] (VString id) [] = Returned docRef →
  collection (VString ("restaurants/" ++ id ++ "/ratings")) [] = Returned ratings →
  ratings = (docRef ++ ["ratings"])%list.
Proof.
  unfold doc, collection, validateNonEmptyArgument, fromString, path_component.
  cbn -[split_slash has_double_slash String.append Nat.even Nat.odd length].
  destruct (negb (String.eqb id "")); [|done].
  cbn -[split_slash has_double_slash String.append Nat.even Nat.odd length].
  destruct (has_double_slash id); [done|].
  cbn -[split_slash has_double_slash String.append Nat.even Nat.odd length].
  rewrite app_nil_r.
  destruct (Nat.even _); [|done]. intros [= <-].
  destruct (has_double_slash _); [done|].
  cbn -[split_slash has_double_slash String.append Nat.even Nat.odd length].
  rewrite split_ratings_path, app_nil_r.
  destruct (Nat.odd _); [|done]. by intros [= <-].
Qed.

(** ** Transactions *)

(** A transaction that fails leaves the database as it was. *)
Lemma runTransaction_thrown {A : Type} (d d' : store) (f : Transaction A) (e : error) :
  runTransaction d f = (Thrown e, d') → d' = d.
Proof.
  unfold runTransaction.
  destruct (f d _) as [[a st]|e']; [|by intros [= _ <-]].
  destruct (commit d _); [done | by intros [= _ <-]].
Qed.

Section Review_properties.
Context `{Runtime}.

(** What a committed [updateWithRating] has read, computed and written. *)
Lemma updateWithRating_committed (now : Z) (docRef rref : path) (review : value)
    (d d' : store) :
  runTransaction d (updateWithRating now docRef rref review) = (Returned (), d') ↔
  ∃ old n s a fields ts stored,
    d !! docRef = Some old ∧
    newNumRatings (VObject old) = Returned n ∧
    newSumRating (VObject old) review = Returned s ∧
    newAverage s n = Returned a ∧
    parseData [("numRatings", n); ("sumRating", s); ("avgRating", a)]
      = Returned fields ∧
    Timestamp_fromDate (new_Date now) = Returned ts ∧
    parseData (obj_set "timestamp" ts (obj_assign [] (own_props review)))
      = Returned stored ∧
    d' = <[rref := stored]> (<[docRef := obj_assign old fields]> d).
Proof.
  assert (bool_decide (docRef ∈ [docRef]) = true) as Hread
    by (apply bool_decide_eq_true_2; by left).
  unfold runTransaction, updateWithRating, mbind, Transaction_bind,
    transaction_get, transaction_update, transaction_set, lift,
    Firestore.data, snap_exists, getDoc, record_write.
  cbn [snap_data tx_reads tx_writes].
  split.
  - destruct (d !! docRef) as [old|] eqn:Hold.
    + destruct (newNumRatings (VObject old)) as [n|] eqn:Hn; [|done].
      destruct (newSumRating (VObject old) review) as [s|] eqn:Hs; [|done].
      destruct (newAverage s n) as [a|] eqn:Ha; [|done].
      destruct (parseData [("numRatings", n); ("sumRating", s); ("avgRating", a)])
        as [fields|] eqn:Hf; [|done].
      cbn [snap_data tx_reads tx_writes]. rewrite Hread. cbn [andb negb].
      destruct (Timestamp_fromDate (new_Date now)) as [ts|] eqn:Hts; [|done].
      destruct (parseData (obj_set "timestamp" ts (obj_assign [] (own_props review))))
        as [stored|] eqn:Hst; [|done].
      simpl. rewrite Hold. intros [= <-].
      by exists old, n, s, a, fields, ts, stored.
    + destruct (newNumRatings VUndefined) as [n|]; [|done].
      destruct (newSumRating VUndefined review) as [s|]; [|done].
      destruct (newAverage s n) as [a|]; [|done].
      destruct (parseData _) as [fields|]; [|done].
      cbn [snap_data tx_reads tx_writes]. by rewrite Hread.
  - intros (old & n & s & a & fields & ts & stored &
            Hold & Hn & Hs & Ha & Hf & Hts & Hst & ->).
    rewrite Hold, Hn, Hs, Ha, Hf. cbn [snap_data tx_reads tx_writes].
    rewrite Hread, Hts, Hst. simpl.
    by rewrite Hold.
Qed.

(** [addReviewToRestaurant] on arguments that pass its two checks, step
    by step. *)
Lemma addReviewToRestaurant_steps (id : string) (review : value) (w : World) :
  truthy (VString id) = true →
  truthy review = true →
  addReviewToRestaurant (VString id) review w =
    let failed e w :=
      (Thrown e,
       (console_error "There was an error adding the rating to the restaurant" e w).2) in
    match doc ["restaurants"] (VString id) [] with
    | Thrown e => failed e w
    | Returned docRef =>
        match collection (VString ("restaurants/" ++ id ++ "/ratings")) [] with
        | Thrown e => failed e w
        | Returned ratings =>
            let w1 := (doc_new ratings w).2 in
            match runTransaction (db w)
                    (updateWithRating (clock w) docRef
                       (doc_auto ratings (newId w (issued w))) review) with
            | (Returned _, d) => (Returned VUndefined, set_db d w1)
            | (Thrown e, d) => failed e (set_db d w1)
            end
        end
    end.
Proof.
  intros Hid Hrev. unfold addReviewToRestaurant. rewrite Hid, Hrev.
  cbv beta iota zeta delta [negb].
  unfold try_catch, mbind, IO_bind, eval, read_clock, run_transaction, throw, mret, IO_ret.
  change (outcome_bind _ _ (λ c, doc c (VString id) []) (collection (VString "restaurants") []))
    with (doc ["restaurants"] (VString id) []).
  destruct (doc ["restaurants"] (VString id) []) as [docRef|e]; [|done].
  change (outcome_bind _ _ _ (to_string (VString id)))
    with (collection (VString ("restaurants/" ++ id ++ "/ratings")) []).
  destruct (collection (VString ("restaurants/" ++ id ++ "/ratings")) [])
    as [ratings|e]; [|done].
  cbv beta iota zeta delta [doc_new fst snd].
  unfold set_db; cbv beta iota zeta delta [db clock newId issued listeners console].
  destruct (runTransaction _ _) as [[[]|e] d]; reflexivity.
Qed.

(** A call that throws has written nothing. *)
Lemma addReviewToRestaurant_thrown (restaurantId review : value) (w w' : World)
    (e : error) :
  addReviewToRestaurant restaurantId review w = (Thrown e, w') →
  db w' = db w.
Proof.
  unfold addReviewToRestaurant.
  destruct (truthy restaurantId); [|by intros [= _ <-]].
  destruct (truthy review); [|by intros [= _ <-]].
  cbv beta iota zeta delta [negb].
  unfold try_catch, mbind, IO_bind, eval, read_clock, run_transaction, throw,
    doc_new, mret, IO_ret, console_error.
  destruct (outcome_bind _ _ _ (collection (VString "restaurants") []));
    [|by intros [= _ <-]].
  destruct (outcome_bind _ _ _ (to_string restaurantId)); [|by intros [= _ <-]].
  cbv beta iota zeta delta [db clock newId issued listeners console].
  destruct (runTransaction _ _) as [[[]|e'] d] eqn:Hrun; [done|].
  apply runTransaction_thrown in Hrun as ->. by intros [= _ <-].
Qed.
End Review_properties.

(* ===================================================================== *)
(** * Submitting a review                                                 *)
(* ===================================================================== *)

Section Aggregate.
Context `{Runtime}.

Lemma newNumRatings_number (old : object) (n : float) :
  stored_number (obj_get "numRatings" old) = Some n →
  newNumRatings (VObject old) = Returned (VNumber (PrimFloat.add n 1)).
Proof.
  unfold newNumRatings, get_prop_opt, get_prop, own_props.
  destruct (obj_get "numRatings" old) as [| |b|x|s|f|ms|sec ns|l|o];
    simpl; try done; try by intros [= <-].
  unfold number_truthy.
  destruct (Prim2SF x) as [[]| | |]; try done; intros [= <-]; reflexivity.
Qed.

Lemma newSumRating_number (old review : object) (s r : float) :
  stored_number (obj_get "sumRating" old) = Some s →
  obj_get "rating" review = VNumber r →
  newSumRating (VObject old) (VObject review)
  = Returned (VNumber (PrimFloat.add s r)).
Proof.
  unfold newSumRating, get_prop_opt, get_prop, own_props, js_or.
  intros Hs ->.
  destruct (obj_get "sumRating" old) as [| |b|x|s'|f|ms|sec ns|l|o];
    simpl in *; try done; try by injection Hs as <-.
  unfold number_truthy.
  destruct (Prim2SF x) as [[]| | |]; try done; injection Hs as <-;
    reflexivity.
Qed.

(** Outside the readings of [stored_number]: a [sumRating] of [NaN] is
    falsy, so the sum starts again from 0, and a [numRatings] of [NaN]
    starts again from 1. *)
Lemma newSumRating_after_NaN (old review : object) (r : float) :
  obj_get "sumRating" old = VNumber NaN →
  obj_get "rating" review = VNumber r →
  newSumRating (VObject old) (VObject review)
  = Returned (VNumber (PrimFloat.add 0 r)).
Proof.
  unfold newSumRating, get_prop_opt, get_prop, own_props, js_or.
  by intros -> ->.
Qed.

Lemma newNumRatings_after_NaN (old : object) :
  obj_get "numRatings" old = VNumber NaN →
  newNumRatings (VObject old) = Returned (VNumber 1).
Proof.
  unfold newNumRatings, get_prop_opt, get_prop, own_props.
  by intros ->.
Qed.

(** The three aggregates are primitive values, which a write stores as
    they are. *)
Lemma js_add_storable (a b v : value) :
  js_add a b = Returned v → parse_value v = Some v.
Proof.
  unfold js_add.
  destruct (to_primitive HintDefault a); [|done].
  destruct (to_primitive HintDefault b); [|done].
  simpl. destruct (_ || _); by intros [= <-].
Qed.

Lemma aggregates_storable (old review : value) (n s a : value) :
  newNumRatings old = Returned n →
  newSumRating old review = Returned s →
  newAverage s n = Returned a →
  parseData [("numRatings", n); ("sumRating", s); ("avgRating", a)]
  = Returned [("numRatings", n); ("sumRating", s); ("avgRating", a)].
Proof.
  intros Hn Hs Ha.
  assert (parse_value n = Some n) as En.
  { unfold newNumRatings in Hn. destruct (truthy _).
    - destruct (get_prop old "numRatings"); [|done].
      simpl in Hn. by apply js_add_storable in Hn.
    - by injection Hn as <-. }
  assert (parse_value s = Some s) as Es.
  { unfold newSumRating in Hs.
    destruct (get_prop review "rating") as [rating|]; [|done].
    simpl in Hs. destruct (Number rating); [|done].
    simpl in Hs. by apply js_add_storable in Hs. }
  assert (parse_value a = Some a) as Ea.
  { unfold newAverage, js_div in Ha.
    destruct (Number s); [|done]. simpl in Ha.
    destruct (Number n); [|done]. simpl in Ha.
    by injection Ha as <-. }
  unfold parseData, parse_fields. by rewrite En, Es, Ea.
Qed.
End Aggregate.

Section Submit.
Context `{Runtime}.

(** The path of the review document a call creates. *)
Lemma new_review_path (docRef : path) (x : string) :
  doc_auto (docRef ++ ["ratings"]) x = (docRef ++ ["ratings"; x])%list.
Proof. unfold doc_auto. by rewrite <- app_assoc. Qed.

(** What a call that returned has done. *)
Lemma addReviewToRestaurant_returned (id : string) (review v : value)
    (w w' : World) :
  addReviewToRestaurant (VString id) review w = (Returned v, w') →
  v = VUndefined ∧
  ∃ docRef old n s a ts stored,
    doc ["restaurants"] (VString id) [] = Returned docRef ∧
    db w !! docRef = Some old ∧
    newNumRatings (VObject old) = Returned n ∧
    newSumRating (VObject old) review = Returned s ∧
    newAverage s n = Returned a ∧
    Timestamp_fromDate (new_Date (clock w)) = Returned ts ∧
    parseData (obj_set "timestamp" ts (obj_assign [] (own_props review)))
      = Returned stored ∧
    db w' =
      <[(docRef ++ ["ratings"; newId w (issued w)])%list := stored]>
        (<[docRef := obj_assign old [("numRatings", n);
                                     ("sumRating", s);
                                     ("avgRating", a)]]> (db w)).
Proof.
  destruct (truthy (VString id)) eqn:Hid;
    [|unfold addReviewToRestaurant; by rewrite Hid].
  destruct (truthy review) eqn:Hrev;
    [|unfold addReviewToRestaurant; by rewrite Hid, Hrev].
  rewrite addReviewToRestaurant_steps by done.
  cbv zeta.
  destruct (doc ["restaurants"] (VString id) []) as [docRef|] eqn:Hdoc; [|done].
  destruct (collection _ []) as [ratings|] eqn:Hcoll; [|done].
  pose proof (ratings_under_restaurant _ _ _ Hdoc Hcoll) as ->.
  rewrite new_review_path.
  destruct (runTransaction _ _) as [[[]|e] d] eqn:Hrun; [|done].
  intros [= <- <-]. split; [done|].
  apply updateWithRating_committed in Hrun
    as (old & n & s & a & fields & ts & stored &
        Hold & Hn & Hs & Ha & Hf & Hts & Hst & ->).
  rewrite (aggregates_storable _ _ _ _ _ Hn Hs Ha) in Hf.
  injection Hf as <-.
  by exists docRef, old, n, s, a, ts, stored.
Qed.

(** When a call returns. *)
Lemma addReviewToRestaurant_returns (id : string) (review : value)
    (docRef ratings : path) (old stored : object) (n s a ts : value) (w : World) :
  truthy review = true →
  doc ["restaurants"] (VString id) [] = Returned docRef →
  collection (VString ("restaurants/" ++ id ++ "/ratings")) [] = Returned ratings →
  db w !! docRef = Some old →
  newNumRatings (VObject old) = Returned n →
  newSumRating (VObject old) review = Returned s →
  newAverage s n = Returned a →
  Timestamp_fromDate (new_Date (clock w)) = Returned ts →
  parseData (obj_set "timestamp" ts (obj_assign [] (own_props review)))
    = Returned stored →
  ∃ w', addReviewToRestaurant (VString id) review w = (Returned VUndefined, w') ∧
    db w' =
      <[(docRef ++ ["ratings"; newId w (issued w)])%list := stored]>
        (<[docRef := obj_assign old [("numRatings", n);
                                     ("sumRating", s);
                                     ("avgRating", a)]]> (db w)).
Proof.
  intros Hrev Hdoc Hcoll Hold Hn Hs Ha Hts Hst.
  assert (truthy (VString id) = true) as Hid.
  { unfold doc, validateNonEmptyArgument in Hdoc.
    by destruct (truthy (VString id)). }
  rewrite addReviewToRestaurant_steps by done.
  cbv zeta. rewrite Hdoc, Hcoll.
  pose proof (ratings_under_restaurant _ _ _ Hdoc Hcoll) as ->.
  rewrite new_review_path.
  pose proof (aggregates_storable _ _ _ _ _ Hn Hs Ha) as Hf.
  destruct (updateWithRating_committed (clock w) docRef
              (docRef ++ ["ratings"; newId w (issued w)])%list review (db w)
              (<[(docRef ++ ["ratings"; newId w (issued w)])%list := stored]>
                 (<[docRef := obj_assign old [("numRatings", n);
                                              ("sumRating", s);
                                              ("avgRating", a)]]> (db w))))
    as [_ Hrun].
  rewrite Hrun.
  - eexists. split; [reflexivity | done].
  - by exists old, n, s, a, [("numRatings", n); ("sumRating", s); ("avgRating", a)],
      ts, stored.
Qed.
End Submit.

Lemma path_ne_child (p : path) (a b : string) : p ≠ (p ++ [a; b])%list.
Proof.
  intros E. apply (f_equal length) in E. rewrite length_app in E.
  simpl in E. lia.
Qed.

(** C1. A call of [addReviewToRestaurant] with a review of numeric rating
    [r] either throws and leaves the database as it was, or returns after
    one transaction that has read the restaurant document, written
    [numRatings], [sumRating] and [avgRating] to it and created the review
    document below it (the review's own properties and a timestamp), both
    writes together. One document is new when the generated identifier is. Where the restaurant's [numRatings] and
    [sumRating] hold the numbers [n] and [s] (a missing field counting as
    0), the three fields written are [n + 1], [s + r] and
    [(s + r) / (n + 1)]. In particular a rating of 5 takes the aggregate
    (2, 7, 3.5) to (3, 12, 4) and creates one review with rating 5. *)
Theorem submit_review_updates_aggregate `{Runtime} :
  (∀ (id : string) (review : object) (r : float) (w w' : World)
     (result : outcome value),
     obj_get "rating" review = VNumber r →
     addReviewToRestaurant (VString id) (VObject review) w = (result, w') →
     match result with
     | Thrown _ => db w' = db w
     | Returned v =>
         v = VUndefined ∧
         ∃ docRef old numRatings sumRating avgRating timestamp stored,
           doc ["restaurants"] (VString id) [] = Returned docRef ∧
           db w !! docRef = Some old ∧
           Timestamp_fromDate (new_Date (clock w)) = Returned timestamp ∧
           parseData (obj_set "timestamp" timestamp (obj_assign [] review))
           = Returned stored ∧
           let newReview := (docRef ++ ["ratings"; newId w (issued w)])%list in
           db w' =
             <[newReview := stored]>
               (<[docRef := obj_assign old [("numRatings", numRatings);
                                            ("sumRating", sumRating);
                                            ("avgRating", avgRating)]]> (db w)) ∧
           (db w !! newReview = None → size (db w') = S (size (db w))) ∧
           (∀ n s,
              stored_number (obj_get "numRatings" old) = Some n →
              stored_number (obj_get "sumRating" old) = Some s →
              numRatings = VNumber (PrimFloat.add n 1) ∧
              sumRating = VNumber (PrimFloat.add s r) ∧
              avgRating = VNumber (PrimFloat.div (PrimFloat.add s r)
                                                 (PrimFloat.add n 1)))
     end) ∧
  (∀ (w : World) (ts : value),
     db w !! ["restaurants"; "R"] = Some example_restaurant →
     Timestamp_fromDate (new_Date (clock w)) = Returned ts →
     ∃ w',
       addReviewToRestaurant (VString "R") (VObject example_review) w
       = (Returned VUndefined, w') ∧
       db w' =
         <[["restaurants"; "R"; "ratings"; newId w (issued w)] :=
             [("rating", VNumber 5); ("timestamp", ts)]]>
           (<[["restaurants"; "R"] :=
                [("numRatings", VNumber 3); ("sumRating", VNumber 12);
                 ("avgRating", VNumber 4)]]> (db w))).
Proof.
  split.
  - intros id review r w w' [v|e] Hr Hrun.
    + apply addReviewToRestaurant_returned in Hrun
        as (-> & docRef & old & n & s & a & ts & stored &
            Hdoc & Hold & Hn & Hs & Ha & Hts & Hst & Hdb).
      split; [done|].
      exists docRef, old, n, s, a, ts, stored.
      split; [done|]. split; [done|]. split; [done|]. split; [done|]. cbv zeta.
      split; [done|]. split.
      * intros Hfresh. rewrite Hdb.
        rewrite map_size_insert_None.
        -- f_equal. apply map_size_insert_Some. by rewrite Hold.
        -- rewrite lookup_insert_ne by apply path_ne_child. done.
      * intros cn cs Hcn Hcs.
        rewrite (newNumRatings_number _ _ Hcn) in Hn.
        rewrite (newSumRating_number _ _ _ _ Hcs Hr) in Hs.
        injection Hn as <-. injection Hs as <-.
        injection Ha as <-. done.
    + by apply addReviewToRestaurant_thrown in Hrun.
  - intros w ts Hold Hts.
    destruct (addReviewToRestaurant_returns "R" (VObject example_review)
                ["restaurants"; "R"] ["restaurants"; "R"; "ratings"]
                example_restaurant [("rating", VNumber 5); ("timestamp", ts)]
                (VNumber 3) (VNumber 12) (VNumber 4) ts w)
      as (w' & Hrun & Hdb); try done.
    + simpl in Hts. unfold Timestamp_fromMillis, new_Timestamp in Hts.
      destruct (_ || _); [done|]. by injection Hts as <-.
    + by exists w'.
Qed.

(** The end-to-end example, run. *)
Lemma submit_review_updates_aggregate_witness :
  db example_world !! ["restaurants"; "R"] = Some example_restaurant ∧
  Timestamp_fromDate (new_Date (clock example_world))
  = Returned (VTimestamp 1700000000 123000000) ∧
  (∃ w',
     addReviewToRestaurant (H := exampleRuntime)
       (VString "R") (VObject example_review) example_world
     = (Returned VUndefined, w') ∧
     db w' =
       <[["restaurants"; "R"; "ratings"; "review0"] :=
           [("rating", VNumber 5); ("timestamp", VTimestamp 1700000000 123000000)]]>
         (<[["restaurants"; "R"] :=
              [("numRatings", VNumber 3); ("sumRating", VNumber 12);
               ("avgRating", VNumber 4)]]> example_db)) ∧
  obj_get "rating" example_review = VNumber 5 ∧
  match (addReviewToRestaurant (H := exampleRuntime)
           (VString "R") (VObject example_review) example_world).1 with
  | Thrown _ => False
  | Returned v => v = VUndefined
  end.
Proof.
  split; [vm_compute; reflexivity|].
  split; [vm_compute; reflexivity|].
  split.
  { apply (proj2 (submit_review_updates_aggregate (H := exampleRuntime))
             example_world (VTimestamp 1700000000 123000000));
      vm_compute; reflexivity. }
  split; [reflexivity|].
  pose proof (proj1 (submit_review_updates_aggregate (H := exampleRuntime))
                "R" example_review 5%float example_world
                (addReviewToRestaurant (H := exampleRuntime)
                   (VString "R") (VObject example_review) example_world).2
                (addReviewToRestaurant (H := exampleRuntime)
                   (VString "R") (VObject example_review) example_world).1
                eq_refl (surjective_pairing _)) as Hrun.
  destruct (addReviewToRestaurant _ _ _).1 as [v|e] eqn:Hres.
  - exact (proj1 Hrun).
  - vm_compute in Hres. discriminate Hres.
Defined.

(** C3. A call of [addReviewToRestaurant] whose [restaurantId] or [review]
    is absent (falsy: [undefined], [null], the empty string, ...) throws
    the module's own error for the missing argument, and the world after
    the call is the world before it: no document is written or changed. *)
Theorem submit_review_rejects_absent_input `{Runtime}
    (restaurantId review : value) (w : World) :
  truthy restaurantId = false ∨ truthy review = false →
  addReviewToRestaurant restaurantId review w =
    (Thrown (Error (if truthy restaurantId
                    then "A valid review has not been provided."
                    else "No restaurant ID has been provided.")), w).
Proof.
  unfold addReviewToRestaurant.
  intros [Hid | Hrev].
  - by rewrite Hid.
  - rewrite Hrev. by destruct (truthy restaurantId).
Qed.

(** An empty id, and an [undefined] review. *)
Lemma submit_review_rejects_absent_input_witness :
  (truthy (VString "") = false ∨ truthy (VObject example_review) = false) ∧
  addReviewToRestaurant (H := exampleRuntime)
    (VString "") (VObject example_review) example_world
  = (Thrown (Error "No restaurant ID has been provided."), example_world) ∧
  (truthy (VString "R") = false ∨ truthy VUndefined = false) ∧
  addReviewToRestaurant (H := exampleRuntime)
    (VString "R") VUndefined example_world
  = (Thrown (Error "A valid review has not been provided."), example_world).
Proof.
  split; [left; reflexivity|].
  split.
  { apply (submit_review_rejects_absent_input (H := exampleRuntime)
             (VString "") (VObject example_review) example_world).
    left; reflexivity. }
  split; [right; reflexivity|].
  apply (submit_review_rejects_absent_input (H := exampleRuntime)
           (VString "R") VUndefined example_world).
  right; reflexivity.
Defined.

(* ===================================================================== *)
(** * The timestamp of a review                                           *)
(* ===================================================================== *)

Lemma Timestamp_fromDate_storable (date ts : value) :
  Timestamp_fromDate date = Returned ts → parse_value ts = Some ts.
Proof.
  destruct date; try done. simpl.
  unfold Timestamp_fromMillis, new_Timestamp.
  destruct (_ || _); [done|]. by intros [= <-].
Qed.

(** C8, as the code has it. The timestamp of the review a successful call
    creates is [Timestamp.fromDate(new Date())], computed inside the
    transaction function from the clock of the process that runs the call.
    It is the same whatever the review holds (a [timestamp] property of the
    review is overwritten) and whatever the database holds. *)
Theorem review_timestamp_is_local_clock `{Runtime}
    (id : string) (review : value) (w w' : World) :
  addReviewToRestaurant (VString id) review w = (Returned VUndefined, w') →
  ∃ docRef stored,
    doc ["restaurants"] (VString id) [] = Returned docRef ∧
    db w' !! (docRef ++ ["ratings"; newId w (issued w)])%list = Some stored ∧
    Returned (obj_get "timestamp" stored)
    = Timestamp_fromDate (new_Date (clock w)).
Proof.
  intros Hrun.
  apply addReviewToRestaurant_returned in Hrun
    as (_ & docRef & old & n & s & a & ts & stored &
        Hdoc & Hold & Hn & Hs & Ha & Hts & Hst & Hdb).
  exists docRef, stored. split; [done|]. split.
  - rewrite Hdb. apply lookup_insert_eq.
  - rewrite Hts. f_equal.
    unfold parseData in Hst.
    destruct (parse_fields _) as [o|] eqn:Hp; [|done]. injection Hst as ->.
    apply (parse_fields_get _ _ _ _ Hp).
    + apply has_field_set_eq.
    + rewrite obj_get_set_eq. by apply Timestamp_fromDate_storable in Hts.
Qed.

(** The end-to-end example again: the review is stamped with the clock of
    [example_world]. *)
Lemma review_timestamp_is_local_clock_witness :
  addReviewToRestaurant (H := exampleRuntime)
    (VString "R") (VObject example_review) example_world
  = (Returned VUndefined,
     (addReviewToRestaurant (H := exampleRuntime)
        (VString "R") (VObject example_review) example_world).2) ∧
  ∃ docRef stored,
    doc ["restaurants"] (VString "R") [] = Returned docRef ∧
    db (addReviewToRestaurant (H := exampleRuntime)
          (VString "R") (VObject example_review) example_world).2
      !! (docRef ++ ["ratings"; "review0"])%list = Some stored ∧
    Returned (obj_get "timestamp" stored)
    = Timestamp_fromDate (new_Date 1700000000123).
Proof.
  split; [vm_compute; reflexivity|].
  apply (review_timestamp_is_local_clock (H := exampleRuntime)
           "R" (VObject example_review) example_world).
  vm_compute; reflexivity.
Defined.

(** C8, as the specification has it, fails: with the same database and the
    same review, two processes whose clocks read 1000 ms and 2000 ms create
    reviews with different timestamps, so the timestamp is not assigned by
    the store. *)
Lemma review_timestamp_not_from_store :
  db (exampleWorld example_db 1000) = db (exampleWorld example_db 2000) ∧
  db (addReviewToRestaurant (H := exampleRuntime)
        (VString "R") (VObject example_review) (exampleWorld example_db 1000)).2
    !! ["restaurants"; "R"; "ratings"; "review0"]
  = Some [("rating", VNumber 5); ("timestamp", VTimestamp 1 0)] ∧
  db (addReviewToRestaurant (H := exampleRuntime)
        (VString "R") (VObject example_review) (exampleWorld example_db 2000)).2
    !! ["restaurants"; "R"; "ratings"; "review0"]
  = Some [("rating", VNumber 5); ("timestamp", VTimestamp 2 0)].
Proof. repeat split; vm_compute; reflexivity. Qed.

(* ===================================================================== *)
(** * A review without a usable rating                                    *)
(* ===================================================================== *)

Lemma js_add_numbers `{Runtime} (a b : float) :
  js_add (VNumber a) (VNumber b) = Returned (VNumber (PrimFloat.add a b)).
Proof. reflexivity. Qed.

Lemma js_div_numbers `{Runtime} (a b : float) :
  js_div (VNumber a) (VNumber b) = Returned (VNumber (PrimFloat.div a b)).
Proof. reflexivity. Qed.

(** C9. A review object whose [rating] is absent, or converts to [NaN],
    passes both checks of [addReviewToRestaurant]; on an existing
    restaurant whose aggregate fields are numbers or missing, with a review
    the store accepts, the transaction commits and the restaurant's
    [sumRating] and [avgRating] are [NaN] afterwards. No error is raised. *)
Theorem unusable_rating_commits_NaN `{Runtime}
    (id : string) (review old stored : object) (docRef ratings : path)
    (ts : value) (w : World) :
  Number (obj_get "rating" review) = Returned NaN →
  doc ["restaurants"] (VString id) [] = Returned docRef →
  collection (VString ("restaurants/" ++ id ++ "/ratings")) [] = Returned ratings →
  db w !! docRef = Some old →
  number_or_missing (obj_get "numRatings" old) = true →
  number_or_missing (obj_get "sumRating" old) = true →
  Timestamp_fromDate (new_Date (clock w)) = Returned ts →
  parseData (obj_set "timestamp" ts (obj_assign [] review)) = Returned stored →
  ∃ w' new,
    addReviewToRestaurant (VString id) (VObject review) w
    = (Returned VUndefined, w') ∧
    db w' !! docRef = Some new ∧
    obj_get "sumRating" new = VNumber NaN ∧
    obj_get "avgRating" new = VNumber NaN.
Proof.
  intros Hr Hdoc Hcoll Hold Hcn Hcs Hts Hst.
  assert (∃ k, newNumRatings (VObject old) = Returned (VNumber k)) as [k Hn].
  { unfold newNumRatings, get_prop_opt, get_prop, own_props.
    destruct (obj_get "numRatings" old); try done; simpl; eauto.
    destruct (number_truthy n); eauto. }
  assert (newSumRating (VObject old) (VObject review) = Returned (VNumber NaN))
    as Hs.
  { unfold newSumRating, get_prop_opt, get_prop, own_props, js_or.
    cbn [mbind outcome_bind]. rewrite Hr. cbn [mbind outcome_bind].
    destruct (obj_get "sumRating" old); try done; cbn [truthy];
      try (by rewrite js_add_numbers, add_NaN_r).
    destruct (number_truthy n); by rewrite js_add_numbers, add_NaN_r. }
  assert (newAverage (VNumber NaN) (VNumber k) = Returned (VNumber NaN)) as Ha.
  { unfold newAverage. by rewrite js_div_numbers, div_NaN_l. }
  destruct (addReviewToRestaurant_returns id (VObject review) docRef ratings
              old stored _ _ _ ts w eq_refl Hdoc Hcoll Hold Hn Hs Ha Hts Hst)
    as (w' & Hrun & Hdb).
  exists w', (obj_assign old [("numRatings", VNumber k);
                              ("sumRating", VNumber NaN);
                              ("avgRating", VNumber NaN)]).
  split; [done|]. split.
  - rewrite Hdb, lookup_insert_ne by (symmetry; apply path_ne_child).
    apply lookup_insert_eq.
  - unfold obj_assign. simpl. split.
    + rewrite obj_get_set_ne by done. apply obj_get_set_eq.
    + apply obj_get_set_eq.
Qed.

(** The review [{ text: "good" }] on the example restaurant. *)
Lemma unusable_rating_commits_NaN_witness :
  Number (H := exampleRuntime) (obj_get "rating" example_review_without_rating)
  = Returned NaN ∧
  ∃ w' new,
    addReviewToRestaurant (H := exampleRuntime)
      (VString "R") (VObject example_review_without_rating) example_world
    = (Returned VUndefined, w') ∧
    db w' !! ["restaurants"; "R"] = Some new ∧
    obj_get "sumRating" new = VNumber NaN ∧
    obj_get "avgRating" new = VNumber NaN.
Proof.
  split; [reflexivity|].
  apply (unusable_rating_commits_NaN (H := exampleRuntime)
           "R" example_review_without_rating example_restaurant
           [("text", VString "good");
            ("timestamp", VTimestamp 1700000000 123000000)]
           ["restaurants"; "R"] ["restaurants"; "R"; "ratings"]
           (VTimestamp 1700000000 123000000) example_world);
    vm_compute; reflexivity.
Defined.

(* ===================================================================== *)
(** * Building a query                                                    *)
(* ===================================================================== *)

Lemma query_filter (q : Query) (field : string) (v : value) :
  (if truthy v then query q (WhereEq field v) else Returned q)
  = (cs ← filter_clause field v; Returned (extend q cs)).
Proof.
  unfold filter_clause, query, extend. destruct (truthy v); simpl.
  - by destruct (parse_value v).
  - rewrite app_nil_r. by destruct q.
Qed.

Lemma query_sort (q : Query) (sort : value) :
  (if strict_eq_string sort "Rating" || negb (truthy sort)
   then query q (OrderBy "avgRating" "desc")
   else if strict_eq_string sort "Review"
   then query q (OrderBy "numRatings" "desc")
   else Returned q)
  = Returned (extend q (sort_clause sort)).
Proof.
  unfold sort_clause, query, extend.
  destruct (_ || _); [done|].
  destruct (strict_eq_string sort "Review"); [done|].
  rewrite app_nil_r. by destruct q.
Qed.

(** [applyQueryFilters] on a filters object: the constraints of the query
    it was given, then the filters for [category], [city] and [price], then
    the ordering. *)
Lemma applyQueryFilters_object (q : Query) (filters : value) :
  is_object filters = true →
  applyQueryFilters q filters =
    (c1 ← filter_clause "category" (obj_get "category" (own_props filters));
     c2 ← filter_clause "city" (obj_get "city" (own_props filters));
     c3 ← filter_clause "price" (obj_get "price" (own_props filters));
     Returned (extend q (c1 ++ c2 ++ c3 ++
                         sort_clause (obj_get "sort" (own_props filters)))%list)).
Proof.
  intros Hobj. unfold applyQueryFilters.
  assert (∀ k, get_prop filters k = Returned (obj_get k (own_props filters))) as Hget.
  { intros k. by destruct filters. }
  rewrite !Hget. cbn [mbind outcome_bind].
  rewrite query_filter.
  destruct (filter_clause "category" _) as [c1|]; [|done]. cbn [mbind outcome_bind].
  rewrite query_filter.
  destruct (filter_clause "city" _) as [c2|]; [|done]. cbn [mbind outcome_bind].
  rewrite query_filter.
  destruct (filter_clause "price" _) as [c3|]; [|done]. cbn [mbind outcome_bind].
  rewrite query_sort. cbn [mbind outcome_bind].
  unfold extend; simpl. by rewrite <- !app_assoc.
Qed.

(** C4, where the code departs from it. [sort: "Rating"] and an absent
    [sort] order by [avgRating] descending and [sort: "Review"] orders by
    [numRatings] descending, but an unrecognized value such as
    [sort: "unknown"] adds no ordering at all: the query comes back
    without an [orderBy] clause instead of the default one. *)
Theorem unknown_sort_adds_no_ordering :
  applyQueryFilters (query_of ["restaurants"]) (VObject [("sort", VString "Rating")])
  = Returned {| q_collection := ["restaurants"];
                q_constraints := [OrderBy "avgRating" "desc"] |} ∧
  applyQueryFilters (query_of ["restaurants"]) (VObject [])
  = Returned {| q_collection := ["restaurants"];
                q_constraints := [OrderBy "avgRating" "desc"] |} ∧
  applyQueryFilters (query_of ["restaurants"]) (VObject [("sort", VString "Review")])
  = Returned {| q_collection := ["restaurants"];
                q_constraints := [OrderBy "numRatings" "desc"] |} ∧
  applyQueryFilters (query_of ["restaurants"]) (VObject [("sort", VString "unknown")])
  = Returned {| q_collection := ["restaurants"]; q_constraints := [] |}.
Proof. repeat split; reflexivity. Qed.

(** Every string that is neither empty nor one of the two recognized keys
    behaves like ["unknown"]. *)
Lemma unrecognized_sort_unordered (q : Query) (s : string) :
  s ≠ "" → s ≠ "Rating" → s ≠ "Review" →
  applyQueryFilters q (VObject [("sort", VString s)]) = Returned q.
Proof.
  intros H0 H1 H2. rewrite applyQueryFilters_object by done.
  cbn. unfold sort_clause. cbn.
  destruct (String.eqb_spec s "Rating"); [done|].
  destruct (String.eqb_spec s ""); [done|].
  destruct (String.eqb_spec s "Review"); [done|].
  cbn. unfold extend. rewrite app_nil_r. by destruct q.
Qed.

(** ** Reading a filters object does not depend on the order of its
    properties *)

Lemma obj_get_elem (k : string) (v : value) (o : object) :
  NoDup o.*1 → (k, v) ∈ o → obj_get k o = v.
Proof.
  induction o as [|[k' v'] o IH]; intros Hnd Hin; [by apply elem_of_nil in Hin|].
  simpl in *. apply NoDup_cons in Hnd as [Hk' Hnd].
  apply elem_of_cons in Hin as [[= <- <-]|Hin].
  - by rewrite String.eqb_refl.
  - destruct (String.eqb_spec k k') as [->|]; [|by apply IH].
    exfalso. apply Hk'. apply list_elem_of_fmap. by exists (k', v).
Qed.

Lemma obj_get_not_elem (k : string) (o : object) :
  k ∉ o.*1 → obj_get k o = VUndefined.
Proof.
  induction o as [|[k' v'] o IH]; intros Hk; [done|].
  simpl in *. apply not_elem_of_cons in Hk as [Hne Hk].
  destruct (String.eqb_spec k k'); [done | by apply IH].
Qed.

Lemma obj_get_permutation (k : string) (o1 o2 : object) :
  NoDup o1.*1 → o1 ≡ₚ o2 → obj_get k o1 = obj_get k o2.
Proof.
  intros Hnd Hperm.
  assert (NoDup o2.*1) as Hnd2 by (by rewrite <- Hperm).
  destruct (decide (k ∈ o1.*1)) as [Hin|Hout].
  - apply list_elem_of_fmap in Hin as ([k' v] & -> & Hin). simpl.
    rewrite (obj_get_elem _ _ _ Hnd Hin).
    symmetry. apply obj_get_elem; [done|]. by rewrite <- Hperm.
  - rewrite (obj_get_not_elem _ _ Hout).
    symmetry. apply obj_get_not_elem. by rewrite <- Hperm.
Qed.

(** ** The result of a query does not depend on the order of its
    constraints *)

Lemma forallb_permutation {A : Type} (f : A → bool) (l1 l2 : list A) :
  l1 ≡ₚ l2 → forallb f l1 = forallb f l2.
Proof.
  induction 1 as [|x l1 l2 _ IH|x y l|l1 l2 l3 _ IH1 _ IH2]; simpl.
  - done.
  - by rewrite IH.
  - by rewrite !andb_assoc, (andb_comm (f y)).
  - by rewrite IH1.
Qed.

Lemma filter_clause_no_ordering (field : string) (v : value) (cs : list constraint) :
  filter_clause field v = Returned cs → List.filter is_ordering cs = [].
Proof.
  unfold filter_clause. destruct (truthy v); [|by intros [= <-]].
  destruct (parse_value v); [|done]. by intros [= <-].
Qed.

Lemma sort_clause_ordering (sort : value) :
  List.filter is_ordering (sort_clause sort) = sort_clause sort.
Proof.
  unfold sort_clause. destruct (_ || _); [done|].
  by destruct (strict_eq_string sort "Review").
Qed.

Lemma filter_clause_holds (field : string) (v : value) (cs : list constraint)
    (d : object) :
  filter_clause field v = Returned cs →
  forallb (satisfies d) cs = filter_holds field v d.
Proof.
  unfold filter_clause, filter_holds. destruct (truthy v); [|by intros [= <-]].
  destruct (parse_value v); [|done]. intros [= <-]. simpl.
  by rewrite andb_true_r.
Qed.

(** C5. [applyQueryFilters] is a function of the four options it reads:
    two filters values that agree on [category], [city], [price] and
    [sort] give the same query, and so do two filters objects that list
    the same properties in a different order. The query it returns selects
    the documents that the given query selects and that pass the
    [category] filter and the [city] filter and the [price] filter (and
    hold the field of the ordering); the documents a query selects do not
    depend on the order of its constraints; and the ordering clauses of the
    returned query are those of the given query followed by the one that
    [sort] alone decides. *)
Theorem query_composition_is_deterministic (q : Query) :
  (∀ f1 f2 : value,
     get_prop f1 "category" = get_prop f2 "category" →
     get_prop f1 "city" = get_prop f2 "city" →
     get_prop f1 "price" = get_prop f2 "price" →
     get_prop f1 "sort" = get_prop f2 "sort" →
     applyQueryFilters q f1 = applyQueryFilters q f2) ∧
  (∀ o1 o2 : object,
     NoDup o1.*1 → o1 ≡ₚ o2 →
     applyQueryFilters q (VObject o1) = applyQueryFilters q (VObject o2)) ∧
  (∀ (f : object) (q' : Query),
     applyQueryFilters q (VObject f) = Returned q' →
     (∀ (p : path) (d : object),
        matches q' p d =
          matches q p d
          && filter_holds "category" (obj_get "category" f) d
          && filter_holds "city" (obj_get "city" f) d
          && filter_holds "price" (obj_get "price" f) d
          && forallb (satisfies d) (sort_clause (obj_get "sort" f))) ∧
     orderings q' = (orderings q ++ sort_clause (obj_get "sort" f))%list) ∧
  (∀ q1 q2 : Query,
     q_collection q1 = q_collection q2 →
     q_constraints q1 ≡ₚ q_constraints q2 →
     (∀ (p : path) (d : object), matches q1 p d = matches q2 p d) ∧
     (∀ db : store, result_set db q1 = result_set db q2)).
Proof.
  split; [|split; [|split]].
  - intros f1 f2 Hc Hy Hp Hs. unfold applyQueryFilters.
    by rewrite Hc, Hy, Hp, Hs.
  - intros o1 o2 Hnd Hperm. rewrite !applyQueryFilters_object by done.
    cbn [own_props].
    by rewrite !(obj_get_permutation _ o1 o2 Hnd Hperm).
  - intros f q' Hq. rewrite applyQueryFilters_object in Hq by done.
    cbn [own_props] in Hq.
    destruct (filter_clause "category" _) as [c1|] eqn:H1; [|done].
    destruct (filter_clause "city" _) as [c2|] eqn:H2; [|done].
    destruct (filter_clause "price" _) as [c3|] eqn:H3; [|done].
    cbn [mbind outcome_bind] in Hq. injection Hq as <-. split.
    + intros p d. unfold matches, extend. cbn [q_collection q_constraints].
      rewrite !forallb_app.
      rewrite (filter_clause_holds _ _ _ d H1), (filter_clause_holds _ _ _ d H2),
        (filter_clause_holds _ _ _ d H3).
      by rewrite !andb_assoc.
    + unfold orderings, extend. cbn [q_constraints].
      rewrite !List.filter_app.
      rewrite (filter_clause_no_ordering _ _ _ H1),
        (filter_clause_no_ordering _ _ _ H2),
        (filter_clause_no_ordering _ _ _ H3), sort_clause_ordering.
      done.
  - intros q1 q2 Hcoll Hperm.
    assert (∀ p d, matches q1 p d = matches q2 p d) as Hm.
    { intros p d. unfold matches.
      by rewrite Hcoll, (forallb_permutation _ _ _ Hperm). }
    split; [done|].
    intros db. unfold result_set. apply map_filter_ext.
    intros p d _. simpl. by rewrite Hm.
Qed.

(** Three options given in two orders, and a document the query selects. *)
Lemma query_composition_is_deterministic_witness :
  applyQueryFilters (query_of ["restaurants"])
    (VObject [("city", VString "Paris"); ("sort", VString "Review");
              ("category", VString "Sushi")])
  = applyQueryFilters (query_of ["restaurants"])
      (VObject [("category", VString "Sushi"); ("city", VString "Paris");
                ("sort", VString "Review")]) ∧
  applyQueryFilters (query_of ["restaurants"])
    (VObject [("category", VString "Sushi"); ("city", VString "Paris");
              ("sort", VString "Review")])
  = Returned {| q_collection := ["restaurants"];
                q_constraints := [WhereEq "category" (VString "Sushi");
                                  WhereEq "city" (VString "Paris");
                                  OrderBy "numRatings" "desc"] |} ∧
  matches {| q_collection := ["restaurants"];
             q_constraints := [WhereEq "category" (VString "Sushi");
                               WhereEq "city" (VString "Paris");
                               OrderBy "numRatings" "desc"] |}
    ["restaurants"; "R"]
    [("category", VString "Sushi"); ("city", VString "Paris");
     ("numRatings", VNumber 2)]
  = true.
Proof.
  split.
  { apply (proj1 (proj2 (query_composition_is_deterministic
                           (query_of ["restaurants"])))).
    - apply (bool_decide_unpack _). vm_compute. reflexivity.
    - symmetry.
      apply (Permutation_cons_append
               [("city", VString "Paris"); ("sort", VString "Review")]
               ("category", VString "Sushi")). }
  split; reflexivity.
Defined.

(* ===================================================================== *)
(** * Subscriptions                                                       *)
(* ===================================================================== *)

Lemma restaurant_ref_nonempty (id : string) (docRef : path) :
  doc [] (VString "restaurants") [VString id] = Returned docRef →
  truthy (VString id) = true.
Proof. by destruct id. Qed.

(** C6, as the code has it. [getRestaurantsSnapshot] with an observer that
    is not a function, and [getRestaurantSnapshotById] and
    [getReviewsSnapshotByRestaurantId] with a falsy key, write a message to
    the console and return [undefined] without throwing; no listener is
    attached and the database is untouched. *)
Theorem invalid_subscription_returns_undefined (w : World) :
  (∀ cb filters : value,
     typeof cb ≠ "function" →
     getRestaurantsSnapshot cb filters w =
       (Returned VUndefined,
        log "Error: The callback parameter is not a function" None w)) ∧
  (∀ restaurantId cb : value,
     truthy restaurantId = false →
     getRestaurantSnapshotById restaurantId cb w =
       (Returned VUndefined,
        log "Error: Invalid restaurantId received: " (Some restaurantId) w) ∧
     getReviewsSnapshotByRestaurantId restaurantId cb w =
       (Returned VUndefined,
        log "Error: Invalid restaurantId received: " (Some restaurantId) w)) ∧
  (∀ (msg : string) (arg : option value),
     listeners (log msg arg w) = listeners w ∧
     db (log msg arg w) = db w ∧
     console (log msg arg w) = (console w ++ [Log msg arg])%list).
Proof.
  split; [|split].
  - intros cb filters Hcb. unfold getRestaurantsSnapshot.
    destruct (String.eqb_spec (typeof cb) "function"); done.
  - intros restaurantId cb Hid.
    unfold getRestaurantSnapshotById, getReviewsSnapshotByRestaurantId.
    by rewrite Hid.
  - done.
Qed.

(** A number as observer, and an empty key. *)
Lemma invalid_subscription_returns_undefined_witness :
  typeof (VNumber 42) ≠ "function" ∧
  getRestaurantsSnapshot (VNumber 42) VUndefined example_world =
    (Returned VUndefined,
     log "Error: The callback parameter is not a function" None example_world) ∧
  truthy (VString "") = false ∧
  getRestaurantSnapshotById (VString "") (VFunction (Callback 1)) example_world =
    (Returned VUndefined,
     log "Error: Invalid restaurantId received: " (Some (VString "")) example_world) ∧
  listeners (log "Error: Invalid restaurantId received: " (Some (VString ""))
               example_world) = [].
Proof.
  split; [done|]. split.
  { apply (proj1 (invalid_subscription_returns_undefined example_world)
             (VNumber 42) VUndefined). done. }
  split; [reflexivity|]. split.
  { apply (proj1 (proj2 (invalid_subscription_returns_undefined example_world))
             (VString "") (VFunction (Callback 1))). reflexivity. }
  reflexivity.
Defined.

(** C6, as the specification has it, fails twice. A collection watch with
    an observer that is not a function does not fail: it returns
    [undefined]. A document watch with such an observer is established all
    the same, and the error comes at the first delivery. *)
Lemma invalid_observer_is_not_rejected :
  (getRestaurantsSnapshot (VNumber 42) VUndefined
     (exampleWorld example_db_dated 0)).1
  = Returned VUndefined ∧
  (getRestaurantSnapshotById (VString "R") (VNumber 42)
     (exampleWorld example_db_dated 0)).1
  = Returned (VFunction (Unsubscribe 0)) ∧
  listeners (getRestaurantSnapshotById (VString "R") (VNumber 42)
               (exampleWorld example_db_dated 0)).2
  = [{| l_target := DocTarget ["restaurants"; "R"];
        l_handler := RestaurantByIdHandler (VNumber 42) |}] ∧
  fire_doc {| l_target := DocTarget ["restaurants"; "R"];
              l_handler := RestaurantByIdHandler (VNumber 42) |}
    example_db_dated
  = Thrown (TypeError "cb is not a function").
Proof. repeat split; vm_compute; reflexivity. Qed.

(** A document watch with a callable observer: the call attaches one
    listener on the restaurant's document, and the listener's callback
    hands [null] to the observer when the document is missing and an
    object when it exists. *)
Lemma document_watch (id : string) (cb : fn) (w : World) (docRef : path) :
  doc [] (VString "restaurants") [VString id] = Returned docRef →
  ∃ unsubscribe l,
    getRestaurantSnapshotById (VString id) (VFunction cb) w =
      (Returned (VFunction unsubscribe),
       {| db := db w; listeners := (listeners w ++ [l])%list;
          console := console w; clock := clock w;
          newId := newId w; issued := issued w |}) ∧
    l_target l = DocTarget docRef ∧
    (∀ d : store,
       d !! docRef = None → fire_doc l d = Returned [Call cb VNull]) ∧
    (∀ (d : store) (o : object) (calls : list call),
       d !! docRef = Some o →
       fire_doc l d = Returned calls →
       ∃ data, calls = [Call cb (VObject data)]).
Proof.
  intros Hdoc.
  exists (Unsubscribe (length (listeners w))),
    {| l_target := DocTarget docRef; l_handler := RestaurantByIdHandler (VFunction cb) |}.
  split; [|split; [done|split]].
  - unfold getRestaurantSnapshotById.
    rewrite (restaurant_ref_nonempty _ _ Hdoc).
    cbv beta iota delta [negb mbind IO_bind eval].
    by rewrite Hdoc.
  - intros d Hd. unfold fire_doc, run_handler, snap_exists, getDoc; simpl.
    by rewrite Hd.
  - intros d o calls Hd. unfold fire_doc, run_handler, snap_exists, getDoc; simpl.
    rewrite Hd; simpl.
    destruct (plain_doc _) as [v|] eqn:Hv; [|done]. simpl. intros [= <-].
    unfold plain_doc in Hv.
    destruct (get_prop _ _) as [t|]; [|done]. simpl in Hv.
    destruct (toDate t); [|done]. simpl in Hv. injection Hv as <-. eauto.
Qed.

(** C7. A document watch with a callable observer is established, and
    whenever its document does not exist (never created, or deleted since)
    the callback makes one call to the observer, with [null], and returns
    without an error: not-found is a delivery, not the absence of one. When
    the document exists a delivery is an object, never [null]. *)
Theorem missing_document_delivers_null (id : string) (cb : fn) (w : World)
    (docRef : path) :
  doc [] (VString "restaurants") [VString id] = Returned docRef →
  ∃ unsubscribe l,
    getRestaurantSnapshotById (VString id) (VFunction cb) w =
      (Returned (VFunction unsubscribe),
       {| db := db w; listeners := (listeners w ++ [l])%list;
          console := console w; clock := clock w;
          newId := newId w; issued := issued w |}) ∧
    l_target l = DocTarget docRef ∧
    (∀ d : store,
       d !! docRef = None →
       fire_doc l d = Returned [Call cb VNull] ∧
       ∀ calls, fire_doc l d = Returned calls → calls ≠ []) ∧
    (∀ (d : store) (o : object) (calls : list call),
       d !! docRef = Some o →
       fire_doc l d = Returned calls →
       ∃ data, calls = [Call cb (VObject data)]).
Proof.
  intros Hdoc.
  destruct (document_watch id cb w docRef Hdoc)
    as (unsubscribe & l & Hrun & Htarget & Hmissing & Hexists).
  exists unsubscribe, l. repeat split; try done.
  - by apply Hmissing.
  - intros calls. rewrite (Hmissing d) by done. by intros [= <-].
Qed.

(** A watch on [restaurants/Q], which the example database does not hold. *)
Lemma missing_document_delivers_null_witness :
  doc [] (VString "restaurants") [VString "Q"] = Returned ["restaurants"; "Q"] ∧
  ∃ unsubscribe l,
    getRestaurantSnapshotById (VString "Q") (VFunction (Callback 7)) example_world =
      (Returned (VFunction unsubscribe),
       {| db := db example_world; listeners := (listeners example_world ++ [l])%list;
          console := console example_world; clock := clock example_world;
          newId := newId example_world; issued := issued example_world |}) ∧
    l_target l = DocTarget ["restaurants"; "Q"] ∧
    (∀ d : store,
       d !! ["restaurants"; "Q"] = None →
       fire_doc l d = Returned [Call (Callback 7) VNull] ∧
       ∀ calls, fire_doc l d = Returned calls → calls ≠ []) ∧
    (∀ (d : store) (o : object) (calls : list call),
       d !! ["restaurants"; "Q"] = Some o →
       fire_doc l d = Returned calls →
       ∃ data, calls = [Call (Callback 7) (VObject data)]).
Proof.
  split; [reflexivity|].
  apply (missing_document_delivers_null "Q" (Callback 7) example_world
           ["restaurants"; "Q"]).
  reflexivity.
Defined.

(** C10. [getRestaurantById] on a non-empty id whose document does not
    exist, or exists without a [timestamp] field, throws a [TypeError]
    while it builds its result and changes nothing; it returns no
    not-found value. The document watch on the same missing document
    delivers [null] instead. *)
Theorem getRestaurantById_missing_document_throws (id : string) (w : World)
    (docRef : path) :
  doc [] (VString "restaurants") [VString id] = Returned docRef →
  (db w !! docRef = None ∨
   ∃ d, db w !! docRef = Some d ∧ has_field "timestamp" d = false) →
  (∃ msg, getRestaurantById (VString id) w = (Thrown (TypeError msg), w)) ∧
  (db w !! docRef = None →
   ∀ cb : fn, ∃ l,
     listeners (getRestaurantSnapshotById (VString id) (VFunction cb) w).2
     = (listeners w ++ [l])%list ∧
     fire_doc l (db w) = Returned [Call cb VNull]).
Proof.
  intros Hdoc Hmissing. split.
  - unfold getRestaurantById.
    rewrite (restaurant_ref_nonempty _ _ Hdoc).
    cbv beta iota delta [negb mbind IO_bind eval get_doc].
    rewrite Hdoc. unfold Firestore.data, getDoc; simpl.
    destruct Hmissing as [-> | (d & -> & Hts)]; simpl.
    + eauto.
    + rewrite (obj_get_no_field _ _ Hts). simpl. eauto.
  - intros Hnone cb.
    destruct (document_watch id cb w docRef Hdoc)
      as (unsub & l & Hrun & _ & Hnull & _).
    exists l. rewrite Hrun. split; [done|]. by apply Hnull.
Qed.

(** A one-shot read of [restaurants/Q]. *)
Lemma getRestaurantById_missing_document_throws_witness :
  doc [] (VString "restaurants") [VString "Q"] = Returned ["restaurants"; "Q"] ∧
  db example_world !! ["restaurants"; "Q"] = None ∧
  (∃ msg, getRestaurantById (VString "Q") example_world
          = (Thrown (TypeError msg), example_world)) ∧
  (db example_world !! ["restaurants"; "Q"] = None →
   ∀ cb : fn, ∃ l,
     listeners (getRestaurantSnapshotById (VString "Q") (VFunction cb)
                  example_world).2
     = (listeners example_world ++ [l])%list ∧
     fire_doc l (db example_world) = Returned [Call cb VNull]).
Proof.
  split; [reflexivity|]. split; [vm_compute; reflexivity|].
  apply (getRestaurantById_missing_document_throws "Q" example_world
           ["restaurants"; "Q"]).
  - reflexivity.
  - left. vm_compute. reflexivity.
Defined.

(* ===================================================================== *)
(** * Further properties: the rest of the module                          *)
(* ===================================================================== *)

(** ** Objects with distinct property names *)

Lemma has_field_elem (k : string) (o : object) :
  has_field k o = true ↔ k ∈ o.*1.
Proof.
  induction o as [|[k' v] o IH]; simpl.
  - split; [done | by intros ?%elem_of_nil].
  - rewrite orb_true_iff, IH, elem_of_cons.
    split; (intros [Hk|Hk]; [left | by right]).
    + by apply String.eqb_eq.
    + by apply String.eqb_eq.
Qed.

Lemma has_field_not_elem (k : string) (o : object) :
  k ∉ o.*1 → has_field k o = false.
Proof.
  intros Hk. destruct (has_field k o) eqn:E; [|done].
  by apply has_field_elem in E.
Qed.

Lemma obj_set_keys (k : string) (v : value) (o : object) :
  (obj_set k v o).*1 = if has_field k o then o.*1 else (o.*1 ++ [k])%list.
Proof.
  induction o as [|[k' v'] o IH]; [done|].
  cbn [obj_set has_field].
  destruct (String.eqb_spec k k') as [->|Hne]; cbn [orb]; rewrite !fmap_cons.
  - done.
  - rewrite IH. by destruct (has_field k o).
Qed.

Lemma obj_set_NoDup (k : string) (v : value) (o : object) :
  NoDup o.*1 → NoDup (obj_set k v o).*1.
Proof.
  intros Hnd. rewrite obj_set_keys.
  destruct (has_field k o) eqn:E; [done|].
  apply NoDup_app. split; [done|]. split; [|apply NoDup_singleton].
  intros x Hx ->%list_elem_of_singleton.
  apply has_field_elem in Hx. congruence.
Qed.

Lemma obj_assign_NoDup (base src : object) :
  NoDup base.*1 → NoDup (obj_assign base src).*1.
Proof.
  unfold obj_assign. revert base.
  induction src as [|[k v] src IH]; intros base Hnd; simpl; [done|].
  apply IH. by apply obj_set_NoDup.
Qed.

(** A spread copies every property of its source and keeps the others. *)
Lemma obj_get_assign (k : string) (base src : object) :
  NoDup src.*1 →
  obj_get k (obj_assign base src) =
    if has_field k src then obj_get k src else obj_get k base.
Proof.
  unfold obj_assign. revert base.
  induction src as [|[k' v] src IH]; intros base Hnd; [done|].
  rewrite fmap_cons in Hnd. apply NoDup_cons in Hnd as [Hk' Hnd].
  cbn [fold_left fst snd has_field obj_get] in *. rewrite IH by done.
  destruct (String.eqb_spec k k') as [->|Hne]; cbn [orb].
  - rewrite (has_field_not_elem _ _ Hk'). apply obj_get_set_eq.
  - destruct (has_field k src); [done|]. by apply obj_get_set_ne.
Qed.

Lemma has_field_set (k k' : string) (v : value) (o : object) :
  has_field k (obj_set k' v o) = String.eqb k k' || has_field k o.
Proof.
  induction o as [|[k'' v''] o IH]; simpl.
  - by rewrite orb_false_r.
  - destruct (String.eqb_spec k' k'') as [->|Hne]; simpl.
    + destruct (String.eqb k k''); done.
    + rewrite IH. destruct (String.eqb k k''), (String.eqb k k'); done.
Qed.

Lemma has_field_assign (k : string) (base src : object) :
  has_field k (obj_assign base src) = has_field k base || has_field k src.
Proof.
  unfold obj_assign. revert base.
  induction src as [|[k' v] src IH]; intros base; simpl.
  - by rewrite orb_false_r.
  - rewrite IH, has_field_set. simpl.
    destruct (String.eqb k k'), (has_field k base), (has_field k src); done.
Qed.

Lemma parse_fields_keys (o o' : object) :
  parse_fields o = Some o' → o'.*1 = o.*1.
Proof.
  revert o'. induction o as [|[k x] o IH]; intros o' Hp; simpl in Hp.
  - by injection Hp as <-.
  - destruct (parse_value x); [|done].
    destruct (parse_fields o) as [o''|]; [|done].
    injection Hp as <-. simpl. f_equal. by apply IH.
Qed.

Lemma parse_fields_has_field (k : string) (o o' : object) :
  parse_fields o = Some o' → has_field k o' = has_field k o.
Proof.
  intros Hp. apply parse_fields_keys in Hp.
  destruct (has_field k o) eqn:E.
  - apply has_field_elem. rewrite Hp. by apply has_field_elem.
  - apply has_field_not_elem. rewrite Hp. intros Hin.
    apply has_field_elem in Hin. congruence.
Qed.

(** ** The photo of a restaurant *)

Lemma restaurants_collection :
  collection (VString "restaurants") [] = Returned ["restaurants"].
Proof. reflexivity. Qed.

(** [updateRestaurantImageReference], step by step. *)
Lemma updateRestaurantImageReference_steps (restaurantId url : value) (w : World) :
  updateRestaurantImageReference restaurantId url w =
    match doc ["restaurants"] restaurantId [] with
    | Thrown e => (Thrown e, w)
    | Returned docRef =>
        match parse_value url with
        | None => (Thrown (FirestoreError "invalid-argument"), w)
        | Some url' =>
            match db w !! docRef with
            | None => (Thrown (FirestoreError "not-found"), w)
            | Some old =>
                (Returned VUndefined,
                 set_db (<[docRef := obj_set "photo" url' old]> (db w)) w)
            end
        end
    end.
Proof.
  unfold updateRestaurantImageReference, mbind, IO_bind, eval, updateDoc.
  rewrite restaurants_collection. cbn [outcome_bind].
  destruct (doc ["restaurants"] restaurantId []) as [docRef|e]; [|done].
  unfold parseData, parse_fields, apply_write.
  destruct (parse_value url) as [url'|]; [|done].
  destruct (db w !! docRef) as [old|]; done.
Qed.

(** X1. A photo update that returns has set the [photo] field of the
    restaurant's document to the given URL and has left every other field
    of that document (the aggregate among them), every other document, the
    listeners and the console as they were. *)
Theorem photo_update_sets_photo_only (id : string) (url : value) (w w' : World) :
  updateRestaurantImageReference (VString id) url w = (Returned VUndefined, w') →
  ∃ docRef old new url',
    doc ["restaurants"] (VString id) [] = Returned docRef ∧
    parse_value url = Some url' ∧
    db w !! docRef = Some old ∧
    db w' !! docRef = Some new ∧
    obj_get "photo" new = url' ∧
    (∀ k, k ≠ "photo" → obj_get k new = obj_get k old) ∧
    (∀ p, p ≠ docRef → db w' !! p = db w !! p) ∧
    listeners w' = listeners w ∧ console w' = console w.
Proof.
  rewrite updateRestaurantImageReference_steps.
  destruct (doc ["restaurants"] (VString id) []) as [docRef|]; [|done].
  destruct (parse_value url) as [url'|]; [|done].
  destruct (db w !! docRef) as [old|] eqn:Hold; [|done].
  intros [= <-].
  exists docRef, old, (obj_set "photo" url' old), url'.
  repeat split; try done.
  - apply lookup_insert_eq.
  - apply obj_get_set_eq.
  - intros k Hk. by apply obj_get_set_ne.
  - intros p Hp. simpl. by rewrite lookup_insert_ne.
Qed.

(** The example restaurant, given a photo. *)
Lemma photo_update_sets_photo_only_witness :
  updateRestaurantImageReference (VString "R") (VString "https://img/1.png")
    example_world
  = (Returned VUndefined,
     (updateRestaurantImageReference (VString "R") (VString "https://img/1.png")
        example_world).2) ∧
  ∃ docRef old new url',
    doc ["restaurants"] (VString "R") [] = Returned docRef ∧
    parse_value (VString "https://img/1.png") = Some url' ∧
    db example_world !! docRef = Some old ∧
    db (updateRestaurantImageReference (VString "R") (VString "https://img/1.png")
          example_world).2 !! docRef = Some new ∧
    obj_get "photo" new = url' ∧
    (∀ k, k ≠ "photo" → obj_get k new = obj_get k old) ∧
    (∀ p, p ≠ docRef →
       db (updateRestaurantImageReference (VString "R")
             (VString "https://img/1.png") example_world).2 !! p
       = db example_world !! p) ∧
    listeners (updateRestaurantImageReference (VString "R")
                 (VString "https://img/1.png") example_world).2
    = listeners example_world ∧
    console (updateRestaurantImageReference (VString "R")
               (VString "https://img/1.png") example_world).2
    = console example_world.
Proof.
  split; [vm_compute; reflexivity|].
  apply (photo_update_sets_photo_only "R" (VString "https://img/1.png")
           example_world).
  vm_compute; reflexivity.
Defined.

(** X2. Whatever its arguments, a photo update neither creates nor removes
    a document, and when it throws (no such restaurant, an id that is not a
    document path, a URL the store does not accept) the world is as it was
    before; a missing restaurant is a [not-found] error of the store. *)
Theorem photo_update_never_creates (restaurantId url : value) (w w' : World)
    (r : outcome value) :
  updateRestaurantImageReference restaurantId url w = (r, w') →
  dom (db w') = dom (db w) ∧
  (∀ e, r = Thrown e → w' = w) ∧
  (∀ docRef url',
     doc ["restaurants"] restaurantId [] = Returned docRef →
     parse_value url = Some url' →
     db w !! docRef = None →
     r = Thrown (FirestoreError "not-found")).
Proof.
  rewrite updateRestaurantImageReference_steps.
  destruct (doc ["restaurants"] restaurantId []) as [docRef|e0].
  2: { intros [= <- <-]. split; [done|]. split; [done|]. by intros d u [=]. }
  destruct (parse_value url) as [url0|].
  2: { intros [= <- <-]. split; [done|]. split; [done|]. by intros d u _ [=]. }
  destruct (db w !! docRef) as [old|] eqn:Hold; intros [= <- <-].
  - split; [|split; [done|]].
    + simpl. apply dom_insert_lookup_L. by rewrite Hold.
    + intros d u [= <-] _. congruence.
  - split; [done|]. split; [done|]. done.
Qed.

(** A photo for the example restaurant: no document more, none less. *)
Lemma photo_update_never_creates_witness :
  updateRestaurantImageReference (VString "R") (VString "https://img/1.png")
    example_world
  = ((updateRestaurantImageReference (VString "R") (VString "https://img/1.png")
        example_world).1,
     (updateRestaurantImageReference (VString "R") (VString "https://img/1.png")
        example_world).2) ∧
  dom (db (updateRestaurantImageReference (VString "R")
             (VString "https://img/1.png") example_world).2)
  = dom (db example_world).
Proof.
  split; [apply surjective_pairing|].
  exact (proj1 (photo_update_never_creates (VString "R")
                  (VString "https://img/1.png") example_world _ _
                  (surjective_pairing _))).
Defined.

(** ** Errors of a submission *)

(** X3. With a restaurant id and a review that pass the two checks, every
    error raised inside the [try] block (by the SDK when it builds the
    references, by the transaction function, by the commit) is written to
    the console once, with the module's message, and the same error is
    thrown again; the database and the listeners are untouched. A call that
    returns writes nothing to the console. *)
Theorem submit_review_logs_and_rethrows `{Runtime}
    (restaurantId review : value) (w w' : World) (r : outcome value) :
  truthy restaurantId = true →
  truthy review = true →
  addReviewToRestaurant restaurantId review w = (r, w') →
  listeners w' = listeners w ∧
  match r with
  | Thrown e =>
      console w' =
        (console w ++
         [LogError "There was an error adding the rating to the restaurant" e])%list ∧
      db w' = db w
  | Returned _ => console w' = console w
  end.
Proof.
  intros Hid Hrev. unfold addReviewToRestaurant. rewrite Hid, Hrev.
  cbv beta iota zeta delta [negb].
  unfold try_catch, mbind, IO_bind, eval, read_clock, run_transaction, throw,
    doc_new, mret, IO_ret, console_error.
  destruct (outcome_bind _ _ _ (collection (VString "restaurants") []));
    [|by intros [= <- <-]].
  destruct (outcome_bind _ _ _ (to_string restaurantId)); [|by intros [= <- <-]].
  cbv beta iota zeta delta [db clock newId issued listeners console].
  destruct (runTransaction _ _) as [[[]|e'] d] eqn:Hrun; intros [= <- <-]; [done|].
  apply runTransaction_thrown in Hrun as ->. done.
Qed.

(** A review for a restaurant that does not exist. *)
Lemma submit_review_logs_and_rethrows_witness :
  truthy (VString "Q") = true ∧
  truthy (VObject example_review) = true ∧
  addReviewToRestaurant (H := exampleRuntime)
    (VString "Q") (VObject example_review) example_world
  = (Thrown (FirestoreError "invalid-argument"),
     (addReviewToRestaurant (H := exampleRuntime)
        (VString "Q") (VObject example_review) example_world).2) ∧
  listeners (addReviewToRestaurant (H := exampleRuntime)
               (VString "Q") (VObject example_review) example_world).2
  = listeners example_world ∧
  console (addReviewToRestaurant (H := exampleRuntime)
             (VString "Q") (VObject example_review) example_world).2
  = (console example_world ++
     [LogError "There was an error adding the rating to the restaurant"
        (FirestoreError "invalid-argument")])%list ∧
  db (addReviewToRestaurant (H := exampleRuntime)
        (VString "Q") (VObject example_review) example_world).2
  = db example_world.
Proof.
  split; [reflexivity|]. split; [reflexivity|].
  split; [vm_compute; reflexivity|].
  apply (submit_review_logs_and_rethrows (H := exampleRuntime)
           (VString "Q") (VObject example_review) example_world _
           (Thrown (FirestoreError "invalid-argument")));
    vm_compute; reflexivity.
Defined.

(** X4. A review for a restaurant whose document does not exist is
    rejected: the call throws and no review document is created (there is
    no review without its restaurant). *)
Theorem submit_review_needs_restaurant `{Runtime}
    (id : string) (review : value) (docRef : path) (w : World) :
  doc ["restaurants"] (VString id) [] = Returned docRef →
  db w !! docRef = None →
  ∃ e w',
    addReviewToRestaurant (VString id) review w = (Thrown e, w') ∧
    db w' = db w.
Proof.
  intros Hdoc Hnone.
  destruct (addReviewToRestaurant (VString id) review w) as [[v|e] w'] eqn:Hrun.
  - apply addReviewToRestaurant_returned in Hrun
      as (_ & docRef' & old & n & s & a & ts & stored & Hdoc' & Hold & _).
    rewrite Hdoc in Hdoc'. injection Hdoc' as <-. congruence.
  - exists e, w'. split; [done|]. by apply addReviewToRestaurant_thrown in Hrun.
Qed.

Lemma submit_review_needs_restaurant_witness :
  doc ["restaurants"] (VString "Q") [] = Returned ["restaurants"; "Q"] ∧
  db example_world !! ["restaurants"; "Q"] = None ∧
  ∃ e w',
    addReviewToRestaurant (H := exampleRuntime)
      (VString "Q") (VObject example_review) example_world = (Thrown e, w') ∧
    db w' = db example_world.
Proof.
  split; [reflexivity|]. split; [vm_compute; reflexivity|].
  apply (submit_review_needs_restaurant (H := exampleRuntime)
           "Q" (VObject example_review) ["restaurants"; "Q"] example_world).
  - reflexivity.
  - vm_compute. reflexivity.
Defined.

(** ** A submitted review is read back *)

(** [toDate] undoes [Timestamp.fromDate]. *)
Lemma timestamp_round_trip (ms : Z) (ts : value) :
  Timestamp_fromDate (new_Date ms) = Returned ts →
  toDate ts = Returned (VDate ms).
Proof.
  unfold new_Date, Timestamp_fromDate, Timestamp_fromMillis, new_Timestamp.
  destruct (_ || _); [done|]. intros [= <-]. simpl. do 2 f_equal.
  replace (ms `div` 1000 * 1000000000 + ms `mod` 1000 * 1000000)%Z
    with (ms * 1000000)%Z.
  - apply Z.quot_mul. lia.
  - pose proof (Z.div_mod ms 1000). lia.
Qed.

(** The collection the reviews are read from is the one they are written
    to. *)
Lemma reviews_collection (id : string) (docRef : path) :
  doc ["restaurants"] (VString id) [] = Returned docRef →
  collection (VString "restaurants") [VString id; VString "ratings"]
  = Returned (docRef ++ ["ratings"])%list.
Proof.
  unfold doc, collection, validateNonEmptyArgument, fromString, path_component.
  cbn -[split_slash has_double_slash String.append Nat.even Nat.odd length].
  destruct (negb (String.eqb id "")); [|done].
  cbn -[split_slash has_double_slash String.append Nat.even Nat.odd length].
  destruct (has_double_slash id); [done|].
  cbn -[split_slash has_double_slash String.append Nat.even Nat.odd length].
  rewrite !app_nil_r.
  destruct (Nat.even _) eqn:Heven; [|done]. intros [= <-].
  change (has_double_slash "ratings") with false.
  change (has_double_slash "restaurants") with false.
  change (List.filter nonempty (split_slash "ratings")) with ["ratings"].
  change (List.filter nonempty (split_slash "restaurants")) with ["restaurants"].
  cbn -[split_slash has_double_slash String.append Nat.even Nat.odd length].
  rewrite ?app_nil_r.
  assert (Nat.odd (length ("restaurants" :: List.filter nonempty (split_slash id)
                           ++ ["ratings"])%list) = true) as ->; [|done].
  rewrite length_cons, length_app. simpl length.
  rewrite Nat.add_1_r, Nat.odd_succ.
  exact Heven.
Qed.

Lemma in_collection_child (c : path) (x : string) :
  in_collection c (c ++ [x])%list = true.
Proof.
  unfold in_collection. rewrite take_app_length, length_app. simpl.
  rewrite bool_decide_eq_true_2 by done.
  rewrite Nat.add_1_r. apply Nat.eqb_refl.
Qed.

(** X5. A review that [addReviewToRestaurant] has stored is one the
    reviews query of the same restaurant selects (the query that
    [getReviewsByRestaurantId] and [getReviewsSnapshotByRestaurantId]
    build), and the object the readers make of it carries, as a [Date], the
    very clock reading it was stamped with. *)
Theorem submitted_review_reads_back `{Runtime}
    (id : string) (review : value) (w w' : World) :
  addReviewToRestaurant (VString id) review w = (Returned VUndefined, w') →
  ∃ docRef q stored o,
    doc ["restaurants"] (VString id) [] = Returned docRef ∧
    (c ← collection (VString "restaurants") [VString id; VString "ratings"];
     query (query_of c) (OrderBy "timestamp" "desc")) = Returned q ∧
    db w' !! (docRef ++ ["ratings"; newId w (issued w)])%list = Some stored ∧
    matches q (docRef ++ ["ratings"; newId w (issued w)])%list stored = true ∧
    plain_doc (getDoc (db w') (docRef ++ ["ratings"; newId w (issued w)])%list)
    = Returned (VObject o) ∧
    obj_get "timestamp" o = VDate (clock w).
Proof.
  intros Hrun.
  apply addReviewToRestaurant_returned in Hrun
    as (_ & docRef & old & n & s & a & ts & stored &
        Hdoc & Hold & Hn & Hs & Ha & Hts & Hst & Hdb).
  assert (db w' !! (docRef ++ ["ratings"; newId w (issued w)])%list = Some stored)
    as Hstored by (rewrite Hdb; apply lookup_insert_eq).
  unfold parseData in Hst.
  destruct (parse_fields _) as [st|] eqn:Hp; [|done]. injection Hst as ->.
  assert (obj_get "timestamp" stored = ts) as Hget.
  { apply (parse_fields_get _ _ _ _ Hp).
    - apply has_field_set_eq.
    - rewrite obj_get_set_eq. by apply Timestamp_fromDate_storable in Hts. }
  eexists docRef, _, stored, _.
  split; [done|]. split.
  { rewrite (reviews_collection _ _ Hdoc). reflexivity. }
  split; [done|]. split.
  { unfold matches. cbn [q_collection q_constraints query_of app forallb satisfies].
    replace (docRef ++ ["ratings"; newId w (issued w)])%list
      with ((docRef ++ ["ratings"]) ++ [newId w (issued w)])%list
      by (by rewrite <- app_assoc).
    rewrite in_collection_child.
    rewrite (parse_fields_has_field _ _ _ Hp), has_field_set_eq. done. }
  split.
  { unfold plain_doc, getDoc, Firestore.data. cbn [snap_data snap_id].
    rewrite Hstored. cbn [get_prop own_props mbind outcome_bind].
    rewrite Hget, (timestamp_round_trip _ _ Hts). reflexivity. }
  apply obj_get_set_eq.
Qed.

(** The end-to-end example, read back. *)
Lemma submitted_review_reads_back_witness :
  addReviewToRestaurant (H := exampleRuntime)
    (VString "R") (VObject example_review) example_world
  = (Returned VUndefined,
     (addReviewToRestaurant (H := exampleRuntime)
        (VString "R") (VObject example_review) example_world).2) ∧
  ∃ docRef q stored o,
    doc ["restaurants"] (VString "R") [] = Returned docRef ∧
    (c ← collection (VString "restaurants") [VString "R"; VString "ratings"];
     query (query_of c) (OrderBy "timestamp" "desc")) = Returned q ∧
    db (addReviewToRestaurant (H := exampleRuntime)
          (VString "R") (VObject example_review) example_world).2
      !! (docRef ++ ["ratings"; "review0"])%list = Some stored ∧
    matches q (docRef ++ ["ratings"; "review0"])%list stored = true ∧
    plain_doc (getDoc (db (addReviewToRestaurant (H := exampleRuntime)
                             (VString "R") (VObject example_review)
                             example_world).2)
                 (docRef ++ ["ratings"; "review0"])%list)
    = Returned (VObject o) ∧
    obj_get "timestamp" o = VDate 1700000000123.
Proof.
  split; [vm_compute; reflexivity|].
  apply (submitted_review_reads_back (H := exampleRuntime)
           "R" (VObject example_review) example_world).
  vm_compute; reflexivity.
Defined.

(** ** A photo update and a submission, in either order *)

Section Commute.
Context `{Runtime}.

Lemma newNumRatings_ext (o1 o2 : object) :
  obj_get "numRatings" o1 = obj_get "numRatings" o2 →
  newNumRatings (VObject o1) = newNumRatings (VObject o2).
Proof.
  unfold newNumRatings, get_prop_opt, get_prop, own_props. by intros ->.
Qed.

Lemma newSumRating_ext (o1 o2 : object) (review : value) :
  obj_get "sumRating" o1 = obj_get "sumRating" o2 →
  newSumRating (VObject o1) review = newSumRating (VObject o2) review.
Proof.
  unfold newSumRating, get_prop_opt, own_props. by intros ->.
Qed.

Lemma addReviewToRestaurant_returned_ratings (id : string) (review v : value)
    (w w' : World) :
  addReviewToRestaurant (VString id) review w = (Returned v, w') →
  truthy review = true ∧
  ∃ ratings,
    collection (VString ("restaurants/" ++ id ++ "/ratings")) [] = Returned ratings.
Proof.
  destruct (truthy (VString id)) eqn:Hid;
    [|unfold addReviewToRestaurant; by rewrite Hid].
  destruct (truthy review) eqn:Hrev;
    [|unfold addReviewToRestaurant; by rewrite Hid, Hrev].
  rewrite addReviewToRestaurant_steps by done. cbv zeta.
  destruct (doc ["restaurants"] (VString id) []); [|done].
  destruct (collection _ []) as [ratings|]; [|done].
  intros _. split; [done|]. by exists ratings.
Qed.

(** X6. A photo update and a review submission for the same restaurant
    do not disturb each other: if the submission succeeds after the photo
    update, then both also succeed in the other order, and the two orders
    end with the same review document, the same other documents, and a
    restaurant document with the same value for every field. *)
Theorem photo_update_and_review_commute (id : string) (url review : value)
    (w w1 w2 : World) :
  updateRestaurantImageReference (VString id) url w = (Returned VUndefined, w1) →
  addReviewToRestaurant (VString id) review w1 = (Returned VUndefined, w2) →
  ∃ docRef w1' w2' a b,
    doc ["restaurants"] (VString id) [] = Returned docRef ∧
    addReviewToRestaurant (VString id) review w = (Returned VUndefined, w1') ∧
    updateRestaurantImageReference (VString id) url w1'
    = (Returned VUndefined, w2') ∧
    (∀ p, p ≠ docRef → db w2' !! p = db w2 !! p) ∧
    db w2 !! docRef = Some a ∧
    db w2' !! docRef = Some b ∧
    (∀ k, obj_get k a = obj_get k b).
Proof.
  intros Hphoto Hreview.
  rewrite updateRestaurantImageReference_steps in Hphoto.
  destruct (doc ["restaurants"] (VString id) []) as [docRef|] eqn:Hdoc; [|done].
  destruct (parse_value url) as [url'|] eqn:Hurl; [|done].
  destruct (db w !! docRef) as [old|] eqn:Hold; [|done].
  injection Hphoto as <-.
  destruct (addReviewToRestaurant_returned_ratings _ _ _ _ _ Hreview)
    as (Hrev & ratings & Hcoll).
  apply addReviewToRestaurant_returned in Hreview
    as (_ & docRef' & old1 & n & s & a & ts & stored &
        Hdoc' & Hold1 & Hn & Hs & Ha & Hts & Hst & Hdb).
  rewrite Hdoc in Hdoc'. injection Hdoc' as <-.
  cbn [set_db db clock newId issued] in *.
  rewrite lookup_insert_eq in Hold1. injection Hold1 as <-.
  rewrite (newNumRatings_ext _ old) in Hn by (by apply obj_get_set_ne).
  rewrite (newSumRating_ext _ old) in Hs by (by apply obj_get_set_ne).
  destruct (addReviewToRestaurant_returns id review docRef ratings old stored
              n s a ts w Hrev Hdoc Hcoll Hold Hn Hs Ha Hts Hst)
    as (w1' & Hrun1 & Hdb1).
  set (rref := (docRef ++ ["ratings"; newId w (issued w)])%list) in *.
  assert (docRef ≠ rref) as Hne by apply path_ne_child.
  set (aggs := [("numRatings", n); ("sumRating", s); ("avgRating", a)]) in *.
  exists docRef, w1',
    (set_db (<[docRef := obj_set "photo" url' (obj_assign old aggs)]> (db w1')) w1'),
    (obj_assign (obj_set "photo" url' old) aggs),
    (obj_set "photo" url' (obj_assign old aggs)).
  split; [done|]. split; [done|]. split.
  { rewrite updateRestaurantImageReference_steps, Hdoc, Hurl, Hdb1.
    rewrite lookup_insert_ne by done. by rewrite lookup_insert_eq. }
  split.
  { intros p Hp. cbn [set_db db]. rewrite Hdb, Hdb1.
    rewrite (lookup_insert_ne _ docRef p) by done.
    destruct (decide (rref = p)) as [<-|Hp'].
    - by rewrite !lookup_insert_eq.
    - rewrite !(lookup_insert_ne _ rref p) by done.
      by rewrite !(lookup_insert_ne _ docRef p) by done. }
  split.
  { rewrite Hdb, lookup_insert_ne by done. apply lookup_insert_eq. }
  split.
  { cbn [set_db db]. apply lookup_insert_eq. }
  intros k.
  assert (NoDup aggs.*1) as Hnd.
  { apply (bool_decide_unpack _). vm_compute. reflexivity. }
  rewrite (obj_get_assign _ _ _ Hnd).
  destruct (String.eqb_spec k "photo") as [->|Hk].
  - rewrite !obj_get_set_eq. reflexivity.
  - rewrite !obj_get_set_ne by done. by rewrite (obj_get_assign _ _ _ Hnd).
Qed.
End Commute.

(** The example restaurant gets a photo, then the example review. *)
Lemma photo_update_and_review_commute_witness :
  updateRestaurantImageReference (VString "R") (VString "https://img/1.png")
    example_world
  = (Returned VUndefined,
     (updateRestaurantImageReference (VString "R") (VString "https://img/1.png")
        example_world).2) ∧
  addReviewToRestaurant (H := exampleRuntime) (VString "R") (VObject example_review)
    (updateRestaurantImageReference (VString "R") (VString "https://img/1.png")
       example_world).2
  = (Returned VUndefined,
     (addReviewToRestaurant (H := exampleRuntime) (VString "R")
        (VObject example_review)
        (updateRestaurantImageReference (VString "R")
           (VString "https://img/1.png") example_world).2).2) ∧
  ∃ docRef w1' w2' a b,
    doc ["restaurants"] (VString "R") [] = Returned docRef ∧
    addReviewToRestaurant (H := exampleRuntime) (VString "R")
      (VObject example_review) example_world = (Returned VUndefined, w1') ∧
    updateRestaurantImageReference (VString "R") (VString "https://img/1.png") w1'
    = (Returned VUndefined, w2') ∧
    (∀ p, p ≠ docRef →
       db w2' !! p
       = db (addReviewToRestaurant (H := exampleRuntime) (VString "R")
               (VObject example_review)
               (updateRestaurantImageReference (VString "R")
                  (VString "https://img/1.png") example_world).2).2 !! p) ∧
    db (addReviewToRestaurant (H := exampleRuntime) (VString "R")
          (VObject example_review)
          (updateRestaurantImageReference (VString "R")
             (VString "https://img/1.png") example_world).2).2 !! docRef
    = Some a ∧
    db w2' !! docRef = Some b ∧
    (∀ k, obj_get k a = obj_get k b).
Proof.
  split; [vm_compute; reflexivity|].
  split; [vm_compute; reflexivity|].
  apply (photo_update_and_review_commute (H := exampleRuntime)
           "R" (VString "https://img/1.png") (VObject example_review)
           example_world
           (updateRestaurantImageReference (VString "R")
              (VString "https://img/1.png") example_world).2
           (addReviewToRestaurant (H := exampleRuntime) (VString "R")
              (VObject example_review)
              (updateRestaurantImageReference (VString "R")
                 (VString "https://img/1.png") example_world).2).2);
    vm_compute; reflexivity.
Defined.

(** ** The objects the readers make of documents *)

Lemma plain_doc_fields (d : DocumentSnapshot) (data : object) :
  snap_data d = Some data →
  NoDup data.*1 →
  match obj_get "timestamp" data with
  | VTimestamp s n =>
      ∃ o date,
        plain_doc d = Returned (VObject o) ∧
        toDate (VTimestamp s n) = Returned date ∧
        obj_get "timestamp" o = date ∧
        (∀ k, k ≠ "timestamp" → k ≠ "id" → obj_get k o = obj_get k data) ∧
        (∀ k, k ≠ "timestamp" → k ≠ "id" → has_field k o = has_field k data) ∧
        obj_get "id" o =
          (if has_field "id" data then obj_get "id" data else VString (snap_id d))
  | _ => ∃ msg, plain_doc d = Thrown (TypeError msg)
  end.
Proof.
  intros Hdata Hnd. unfold plain_doc, Firestore.data. rewrite Hdata.
  cbn [get_prop own_props mbind outcome_bind].
  destruct (obj_get "timestamp" data) eqn:Hts; try (simpl; eauto; fail).
  eexists _, _. split; [reflexivity|]. split; [reflexivity|].
  split; [apply obj_get_set_eq|]. split; [|split].
  - intros k Hk Hid. rewrite obj_get_set_ne by done.
    rewrite (obj_get_assign _ _ _ Hnd).
    destruct (has_field k data) eqn:E; [done|].
    rewrite (obj_get_no_field _ _ E). simpl.
    by destruct (String.eqb_spec k "id").
  - intros k Hk Hid. rewrite has_field_set, has_field_assign. simpl.
    destruct (String.eqb_spec k "timestamp"); [done|].
    destruct (String.eqb_spec k "id"); [done|]. done.
  - rewrite obj_get_set_ne by done. rewrite (obj_get_assign _ _ _ Hnd).
    by destruct (has_field "id" data).
Qed.

(** X7. What a reader makes of an existing document whose field names are
    distinct: when [timestamp] holds a [Timestamp], an object with that
    timestamp as a [Date], with every other field of the document as it is
    stored, and with the document id under [id] unless the document
    stores an [id] field of its own, which then wins; when [timestamp]
    holds anything else, a [TypeError]. *)
Theorem plain_doc_shape (d : DocumentSnapshot) (data : object) :
  snap_data d = Some data →
  NoDup data.*1 →
  match obj_get "timestamp" data with
  | VTimestamp s n =>
      ∃ o date,
        plain_doc d = Returned (VObject o) ∧
        toDate (VTimestamp s n) = Returned date ∧
        obj_get "timestamp" o = date ∧
        (∀ k, k ≠ "timestamp" → k ≠ "id" → obj_get k o = obj_get k data) ∧
        (∀ k, k ≠ "timestamp" → k ≠ "id" → has_field k o = has_field k data) ∧
        obj_get "id" o =
          (if has_field "id" data then obj_get "id" data else VString (snap_id d))
  | _ => ∃ msg, plain_doc d = Thrown (TypeError msg)
  end.
Proof. apply plain_doc_fields. Qed.

(** A restaurant with a creation timestamp. *)
Lemma plain_doc_shape_witness :
  snap_data (getDoc example_db_dated ["restaurants"; "R"])
  = Some example_restaurant_dated ∧
  NoDup example_restaurant_dated.*1 ∧
  ∃ o date,
    plain_doc (getDoc example_db_dated ["restaurants"; "R"]) = Returned (VObject o) ∧
    toDate (VTimestamp 1700000000 0) = Returned date ∧
    obj_get "timestamp" o = date ∧
    (∀ k, k ≠ "timestamp" → k ≠ "id" →
       obj_get k o = obj_get k example_restaurant_dated) ∧
    (∀ k, k ≠ "timestamp" → k ≠ "id" →
       has_field k o = has_field k example_restaurant_dated) ∧
    obj_get "id" o = VString "R".
Proof.
  split; [vm_compute; reflexivity|].
  split; [apply (bool_decide_unpack _); vm_compute; reflexivity|].
  apply (plain_doc_shape (getDoc example_db_dated ["restaurants"; "R"])
           example_restaurant_dated).
  - vm_compute. reflexivity.
  - apply (bool_decide_unpack _). vm_compute. reflexivity.
Defined.

Lemma map_docs_Forall2 (f : DocumentSnapshot → outcome value)
    (docs : list DocumentSnapshot) (vs : list value) :
  map_docs f docs = Returned vs ↔ Forall2 (λ d v, f d = Returned v) docs vs.
Proof.
  revert vs. induction docs as [|d docs IH]; intros vs; simpl.
  - split.
    + intros [= <-]. constructor.
    + intros Hf. by apply Forall2_nil_inv_l in Hf as ->.
  - split.
    + destruct (f d) as [v|] eqn:Hd; [|done]. simpl.
      destruct (map_docs f docs) as [vs'|] eqn:Hm; [|done]. simpl.
      intros [= <-]. constructor; [done|]. by apply IH.
    + intros Hf. apply Forall2_cons_inv_l in Hf as (v & vs' & Hd & Hf & ->).
      rewrite Hd. simpl. apply IH in Hf. rewrite Hf. done.
Qed.

Lemma map_docs_thrown (f : DocumentSnapshot → outcome value)
    (docs : list DocumentSnapshot) (d : DocumentSnapshot) (e : error) :
  d ∈ docs → f d = Thrown e → ∃ e', map_docs f docs = Thrown e'.
Proof.
  intros Hin Hd. induction docs as [|d' docs IH]; [by apply elem_of_nil in Hin|].
  simpl. apply elem_of_cons in Hin as [<-|Hin].
  - rewrite Hd. simpl. eauto.
  - destruct (f d'); simpl; [|eauto].
    destruct (IH Hin) as [e' ->]. simpl. eauto.
Qed.

(** X8. A collection listener (restaurants or reviews) delivers all
    documents of a snapshot or none: if the callback cannot convert one of
    them (no [Timestamp] under [timestamp]) it throws before the observer
    is called, and otherwise it calls the observer exactly once, with one
    object per document, in the order of the snapshot. *)
Theorem collection_delivery_all_or_nothing (cb : fn) (docs : list DocumentSnapshot) :
  run_handler (ReviewsHandler (VFunction cb)) (QuerySnap docs)
  = run_handler (RestaurantsHandler (VFunction cb)) (QuerySnap docs) ∧
  (∀ d e, d ∈ docs → plain_doc d = Thrown e →
     ∃ e', run_handler (RestaurantsHandler (VFunction cb)) (QuerySnap docs)
           = Thrown e') ∧
  (∀ calls,
     run_handler (RestaurantsHandler (VFunction cb)) (QuerySnap docs)
     = Returned calls →
     ∃ vs, calls = [Call cb (VArray vs)] ∧
           Forall2 (λ d v, plain_doc d = Returned v) docs vs) ∧
  (∀ vs,
     Forall2 (λ d v, plain_doc d = Returned v) docs vs →
     run_handler (RestaurantsHandler (VFunction cb)) (QuerySnap docs)
     = Returned [Call cb (VArray vs)]).
Proof.
  split; [done|]. unfold run_handler. split; [|split].
  - intros d e Hin Hd.
    destruct (map_docs_thrown _ _ _ _ Hin Hd) as [e' ->]. simpl. eauto.
  - intros calls.
    destruct (map_docs plain_doc docs) as [vs|] eqn:Hm; [|done].
    simpl. intros [= <-]. exists vs. split; [done|]. by apply map_docs_Forall2.
  - intros vs Hf. apply map_docs_Forall2 in Hf. rewrite Hf. done.
Qed.

(** X9. The one-shot read of an existing restaurant (distinct field names,
    a [Timestamp] under [timestamp]) returns the stored fields, the
    timestamp as a [Date], and changes nothing. Unlike the object the
    document watch delivers for the same document, it carries no [id]:
    for a document that stores no [id] field the watch delivers the
    document id under [id], the one-shot read leaves [id] undefined. *)
Theorem getRestaurantById_result (id : string) (w : World) (docRef : path)
    (data : object) (s n : Z) :
  doc [] (VString "restaurants") [VString id] = Returned docRef →
  db w !! docRef = Some data →
  NoDup data.*1 →
  obj_get "timestamp" data = VTimestamp s n →
  ∃ o date,
    getRestaurantById (VString id) w = (Returned (VObject o), w) ∧
    toDate (VTimestamp s n) = Returned date ∧
    obj_get "timestamp" o = date ∧
    (∀ k, k ≠ "timestamp" → obj_get k o = obj_get k data) ∧
    ∀ cb : fn, ∃ o',
      fire_doc {| l_target := DocTarget docRef;
                  l_handler := RestaurantByIdHandler (VFunction cb) |} (db w)
      = Returned [Call cb (VObject o')] ∧
      (has_field "id" data = false →
       obj_get "id" o = VUndefined ∧
       obj_get "id" o' = VString (default "" (last docRef))).
Proof.
  intros Hdoc Hdata Hnd Hts.
  eexists _, _. split.
  { unfold getRestaurantById.
    rewrite (restaurant_ref_nonempty _ _ Hdoc).
    cbv beta iota delta [negb mbind IO_bind eval get_doc].
    rewrite Hdoc. unfold Firestore.data, getDoc. cbn [snap_data].
    rewrite Hdata. cbn [get_prop own_props outcome_bind].
    rewrite Hts. reflexivity. }
  split; [reflexivity|]. split; [apply obj_get_set_eq|]. split.
  { intros k Hk. rewrite obj_get_set_ne by done.
    rewrite (obj_get_assign _ _ _ Hnd).
    destruct (has_field k data) eqn:E; [done|].
    by rewrite (obj_get_no_field _ _ E). }
  intros cb.
  pose proof (plain_doc_fields (getDoc (db w) docRef) data) as Hshape.
  unfold getDoc at 1 in Hshape. cbn [snap_data] in Hshape.
  specialize (Hshape Hdata Hnd). rewrite Hts in Hshape.
  destruct Hshape as (o' & date' & Hplain & _ & _ & _ & _ & Hid).
  exists o'. split.
  { unfold fire_doc, run_handler, snap_exists. cbn [l_target l_handler].
    unfold getDoc at 1. cbn [snap_data]. rewrite Hdata. cbn [negb].
    rewrite Hplain. reflexivity. }
  intros Hnoid. split.
  - rewrite obj_get_set_ne by done. rewrite (obj_get_assign _ _ _ Hnd).
    by rewrite Hnoid.
  - rewrite Hid, Hnoid. reflexivity.
Qed.

Lemma getRestaurantById_result_witness :
  doc [] (VString "restaurants") [VString "R"] = Returned ["restaurants"; "R"] ∧
  db (exampleWorld example_db_dated 0) !! ["restaurants"; "R"]
  = Some example_restaurant_dated ∧
  NoDup example_restaurant_dated.*1 ∧
  obj_get "timestamp" example_restaurant_dated = VTimestamp 1700000000 0 ∧
  ∃ o date,
    getRestaurantById (VString "R") (exampleWorld example_db_dated 0)
    = (Returned (VObject o), exampleWorld example_db_dated 0) ∧
    toDate (VTimestamp 1700000000 0) = Returned date ∧
    obj_get "timestamp" o = date ∧
    (∀ k, k ≠ "timestamp" → obj_get k o = obj_get k example_restaurant_dated) ∧
    ∀ cb : fn, ∃ o',
      fire_doc {| l_target := DocTarget ["restaurants"; "R"];
                  l_handler := RestaurantByIdHandler (VFunction cb) |}
        (db (exampleWorld example_db_dated 0))
      = Returned [Call cb (VObject o')] ∧
      (has_field "id" example_restaurant_dated = false →
       obj_get "id" o = VUndefined ∧
       obj_get "id" o' = VString (default "" (last ["restaurants"; "R"]))).
Proof.
  split; [reflexivity|]. split; [vm_compute; reflexivity|].
  split; [apply (bool_decide_unpack _); vm_compute; reflexivity|].
  split; [reflexivity|].
  apply (getRestaurantById_result "R" (exampleWorld example_db_dated 0)
           ["restaurants"; "R"] example_restaurant_dated 1700000000 0).
  - reflexivity.
  - vm_compute. reflexivity.
  - apply (bool_decide_unpack _). vm_compute. reflexivity.
  - reflexivity.
Defined.

(** ** Reading with a query *)

Lemma example_execute_sound (d : store) (q : Query) (s : DocumentSnapshot) :
  s ∈ example_execute d q →
  ∃ p o, d !! p = Some o ∧ matches q p o = true ∧ s = getDoc d p.
Proof.
  unfold example_execute. intros Hs.
  apply list_elem_of_fmap in Hs as ([p o] & -> & Hin).
  apply elem_of_map_to_list in Hin. unfold result_set in Hin.
  apply map_lookup_filter_Some in Hin as [Hlook Hm]. simpl in Hm.
  exists p, o. split; [done|]. split; [by apply Is_true_true|done].
Qed.

Definition exampleEngine : QueryEngine :=
  {| execute := example_execute; execute_sound := example_execute_sound |}.

Section Reading.
Context `{QueryEngine}.


End Reading.







Definition example_reviews : store :=
  {[ ["restaurants"; "R"; "ratings"; "a"] :=
       [("rating", VNumber 4); ("timestamp", VTimestamp 1700000000 0)];
     ["restaurants"; "S"; "ratings"; "b"] :=
       [("rating", VNumber 1); ("timestamp", VTimestamp 1700000001 0)] ]}.


(** ** [addFakeRestaurantsAndReviews] *)

(** What a run of [addDoc] calls and console output can do to the world:
    documents are added, none is changed or removed, and the listeners stay. *)
Definition only_adds (w w' : World) : Prop :=
  db w ⊆ db w' ∧ listeners w' = listeners w ∧ clock w' = clock w ∧
  newId w' = newId w ∧ (issued w ≤ issued w')%nat.

Lemma only_adds_refl (w : World) : only_adds w w.
Proof. by unfold only_adds. Qed.

Lemma only_adds_trans (w1 w2 w3 : World) :
  only_adds w1 w2 → only_adds w2 w3 → only_adds w1 w3.
Proof.
  intros (? & ? & ? & ? & ?) (? & ? & ? & ? & ?). unfold only_adds.
  split; [by etrans|]. repeat split; try congruence. lia.
Qed.

Lemma addDoc_only_adds (coll : path) (data : value) (w w' : World)
    (r : outcome path) :
  addDoc coll data w = (r, w') → only_adds w w'.
Proof.
  unfold addDoc, mbind, IO_bind, doc_new, eval.
  destruct (document_data data) as [fields|e].
  - cbn [db]. destruct (db w !! doc_auto coll (newId w (issued w))) eqn:Hlook.
    + intros [= _ <-]. unfold only_adds; cbn. repeat split; [done|lia].
    + intros [= _ <-]. unfold only_adds, set_db; cbn. repeat split; [|lia].
      by apply insert_subseteq.
  - intros [= _ <-]. unfold only_adds; cbn. repeat split; [done|lia].
Qed.

Lemma add_ratings_only_adds (restaurant : path) (ratingsData : list value)
    (w w' : World) (r : outcome unit) :
  add_ratings restaurant ratingsData w = (r, w') → only_adds w w'.
Proof.
  revert w. induction ratingsData as [|ratingData rest IH]; intros w.
  - intros [= _ <-]. apply only_adds_refl.
  - cbn [add_ratings]. unfold mbind at 1 2, IO_bind at 1 2, eval.
    destruct (collection _ _) as [ratings|e].
    + destruct (addDoc ratings ratingData w) as [[p|e] w1] eqn:Hadd.
      * intros Hrest. eapply only_adds_trans; [by eapply addDoc_only_adds|].
        by eapply IH.
      * intros [= _ <-]. by eapply addDoc_only_adds.
    + intros [= _ <-]. apply only_adds_refl.
Qed.

Lemma console_only_adds (w : World) (l : list log_entry) :
  only_adds w {| db := db w; listeners := listeners w;
                 console := l; clock := clock w; newId := newId w;
                 issued := issued w |}.
Proof. by unfold only_adds. Qed.

Lemma add_fake_returns (data : list (value * list value)) (w : World) :
  ∃ w', add_fake data w = (Returned (), w') ∧ only_adds w w'.
Proof.
  revert w. induction data as [|[restaurantData ratingsData] rest IH]; intros w.
  - exists w. split; [done|apply only_adds_refl].
  - cbn [add_fake]. unfold mbind at 1, IO_bind at 1, try_catch.
    destruct ((docRef ← (restaurants ← eval (collection (VString "restaurants") []);
                         addDoc restaurants restaurantData);
               add_ratings docRef ratingsData)%IO w) as [[[]|e] w1] eqn:Hbody.
    + assert (only_adds w w1) as H1.
      { revert Hbody. unfold mbind, IO_bind, eval. rewrite restaurants_collection.
        destruct (addDoc _ restaurantData w) as [[p|e] w2] eqn:Hadd.
        - intros Hr. eapply only_adds_trans; [by eapply addDoc_only_adds|].
          by eapply add_ratings_only_adds.
        - done. }
      destruct (IH w1) as (w' & -> & H2). exists w'. split; [done|].
      by eapply only_adds_trans.
    + assert (only_adds w w1) as H1.
      { revert Hbody. unfold mbind, IO_bind, eval. rewrite restaurants_collection.
        destruct (addDoc _ restaurantData w) as [[p|e'] w2] eqn:Hadd.
        - intros Hr. eapply only_adds_trans; [by eapply addDoc_only_adds|].
          by eapply add_ratings_only_adds.
        - intros [= _ <-]. by eapply addDoc_only_adds. }
      unfold mbind, IO_bind, console_log, console_error. cbn [db listeners console clock newId issued].
      match goal with |- ∃ w', add_fake rest ?w2 = _ ∧ _ =>
        destruct (IH w2) as (w' & -> & H2); exists w' end.
      split; [done|].
      eapply only_adds_trans; [exact H1|].
      eapply only_adds_trans; [|exact H2].
      apply console_only_adds.
Qed.


Lemma add_fake_step (restaurantData : value) (ratingsData : list value)
    (rest : list (value * list value)) (w : World) :
  ∃ w1, only_adds w w1 ∧
    add_fake ((restaurantData, ratingsData) :: rest) w = add_fake rest w1 ∧
    match addDoc ["restaurants"] restaurantData w with
    | (Returned docRef, w0) => only_adds w0 w1
    | (Thrown e, w0) =>
        w1 = {| db := db w0; listeners := listeners w0;
                console := (console w0 ++
                            [Log "There was an error adding the document" None;
                             LogError "Error adding document: " e])%list;
                clock := clock w0; newId := newId w0; issued := issued w0 |}
    end.
Proof.
  cbn [add_fake]. unfold mbind at 1, IO_bind at 1, try_catch.
  unfold mbind at 1 2, IO_bind at 1 2, eval. rewrite restaurants_collection.
  destruct (addDoc ["restaurants"] restaurantData w) as [[docRef|e] w0] eqn:Hadd.
  - pose proof (addDoc_only_adds _ _ _ _ _ Hadd) as H0.
    destruct (add_ratings docRef ratingsData w0) as [[[]|e] w2] eqn:Hr;
      pose proof (add_ratings_only_adds _ _ _ _ _ Hr) as H2.
    + exists w2. split; [by eapply only_adds_trans|]. done.
    + unfold mbind, IO_bind, console_log, console_error.
      cbn [db listeners console clock newId issued].
      eexists. split; [|split]. 2: reflexivity.
      * eapply only_adds_trans; [exact H0|].
        eapply only_adds_trans; [exact H2|]. apply console_only_adds.
      * eapply only_adds_trans; [exact H2|]. apply console_only_adds.
  - pose proof (addDoc_only_adds _ _ _ _ _ Hadd) as H0.
    unfold mbind, IO_bind, console_log, console_error.
    cbn [db listeners console clock newId issued].
    eexists. split; [|split]. 2: reflexivity.
    + eapply only_adds_trans; [exact H0|]. apply console_only_adds.
    + by rewrite <-app_assoc.
Qed.

(** X13. A restaurant whose data the store rejects (it is not a plain
    object, or it holds [undefined] or a function) is skipped together with
    its ratings: nothing is written for it, the two error messages go to
    the console, one generated identifier is used up, and the run goes on
    with the restaurants that follow. *)
Theorem rejected_restaurant_is_skipped (restaurantData : value)
    (ratingsData : list value) (rest : list (value * list value))
    (e : error) (w : World) :
  document_data restaurantData = Thrown e →
  addFakeRestaurantsAndReviews ((restaurantData, ratingsData) :: rest) w =
  addFakeRestaurantsAndReviews rest
    {| db := db w; listeners := listeners w;
       console := (console w ++
                   [Log "There was an error adding the document" None;
                    LogError "Error adding document: " e])%list;
       clock := clock w; newId := newId w; issued := S (issued w) |}.
Proof.
  intros Hbad.
  destruct (add_fake_step restaurantData ratingsData rest w) as (w1 & _ & Hstep & Hw1).
  unfold addFakeRestaurantsAndReviews.
  change ((_ ← add_fake ((restaurantData, ratingsData) :: rest); mret VUndefined)%IO w)
    with (match add_fake ((restaurantData, ratingsData) :: rest) w with
          | (Returned a, w') => (Returned VUndefined, w')
          | (Thrown e, w') => (Thrown e, w')
          end).
  rewrite Hstep. revert Hw1.
  unfold addDoc, mbind, IO_bind, doc_new, eval. rewrite Hbad.
  cbn [db listeners console clock newId issued]. by intros ->.
Qed.

(** A restaurant with a function among its fields, with one rating, before
    a restaurant that is stored. *)
Lemma rejected_restaurant_is_skipped_witness :
  document_data (VObject [("name", VFunction (Callback 0))])
  = Thrown (FirestoreError "invalid-argument") ∧
  addFakeRestaurantsAndReviews
    [(VObject [("name", VFunction (Callback 0))], [VObject [("rating", VNumber 5)]]);
     (VObject [("name", VString "Chez Max")], [])]
    (exampleWorld ∅ 0)
  = (Returned VUndefined,
     {| db := {[ ["restaurants"; "review1"] := [("name", VString "Chez Max")] ]};
        listeners := [];
        console := [Log "There was an error adding the document" None;
                    LogError "Error adding document: "
                      (FirestoreError "invalid-argument")];
        clock := 0; newId := exampleIds; issued := 2 |}).
Proof.
  split; [reflexivity|].
  rewrite (rejected_restaurant_is_skipped _ _ _ (FirestoreError "invalid-argument"));
    [|reflexivity].
  vm_compute. reflexivity.
Defined.

(** X14. Nothing is rolled back. A restaurant whose data the store accepts
    is stored under the next generated identifier when no document has that
    identifier yet, and it is there when the call ends, whatever happens to
    its ratings and to the restaurants that follow. *)
Theorem accepted_restaurant_is_kept (restaurantData : value)
    (ratingsData : list value) (rest : list (value * list value))
    (fields : object) (w : World) :
  document_data restaurantData = Returned fields →
  db w !! ["restaurants"; newId w (issued w)] = None →
  ∃ w', addFakeRestaurantsAndReviews ((restaurantData, ratingsData) :: rest) w
        = (Returned VUndefined, w') ∧
        db w' !! ["restaurants"; newId w (issued w)] = Some fields.
Proof.
  intros Hok Hfresh.
  destruct (add_fake_step restaurantData ratingsData rest w) as (w1 & _ & Hstep & Hw1).
  destruct (add_fake_returns rest w1) as (w' & Hrest & Hsub & _).
  exists w'. unfold addFakeRestaurantsAndReviews, mbind at 1, IO_bind at 1.
  rewrite Hstep, Hrest. split; [done|].
  revert Hw1. unfold addDoc, mbind, IO_bind, doc_new, eval. rewrite Hok.
  cbn [db listeners console clock newId issued]. unfold doc_auto. cbn [app].
  rewrite Hfresh. intros (Hsub0 & _).
  eapply lookup_weaken; [|exact Hsub]. eapply lookup_weaken; [|exact Hsub0].
  unfold set_db. cbn [db]. apply lookup_insert_eq.
Qed.

(** A restaurant that is stored, with a rating that is rejected. *)
Lemma accepted_restaurant_is_kept_witness :
  ∃ w', addFakeRestaurantsAndReviews
          [(VObject [("name", VString "Chez Max")], [VUndefined])]
          (exampleWorld ∅ 0)
        = (Returned VUndefined, w') ∧
        db w' !! ["restaurants"; newId (exampleWorld ∅ 0) (issued (exampleWorld ∅ 0))]
        = Some [("name", VString "Chez Max")].
Proof.
  apply (accepted_restaurant_is_kept (VObject [("name", VString "Chez Max")])
           [VUndefined] [] [("name", VString "Chez Max")] (exampleWorld ∅ 0));
    reflexivity.
Defined.

(** ** [storage.js]: [updateRestaurantImage] *)

Section Storage.
Context `{Runtime} `{Services}.

(** The site after the [catch] block of [updateRestaurantImage]. *)
Definition failed (e : error) (s : Site) : Site :=
  {| site_world :=
       {| db := db (site_world s); listeners := listeners (site_world s);
          console := (console (site_world s) ++
                      [LogError "Error processing request:" e])%list;
          clock := clock (site_world s); newId := newId (site_world s);
          issued := issued (site_world s) |};
     site_uploads := site_uploads s |}.

(** The site after the upload of a file. *)
Definition uploaded (path : string) (image : value) (s : Site) : Site :=
  {| site_world := site_world s;
     site_uploads := (site_uploads s ++ [(path, image)])%list |}.

Lemma updateRestaurantImage_steps (restaurantId image : value) (s : Site) :
  updateRestaurantImage restaurantId image s =
    if negb (truthy restaurantId)
    then (Returned VUndefined,
          failed (Error "No restaurant ID has been provided.") s)
    else match no_image image with
    | Thrown e => (Returned VUndefined, failed e s)
    | Returned true =>
        (Returned VUndefined,
         failed (Error "A valid image has not been provided.") s)
    | Returned false =>
        match filePath restaurantId image with
        | Thrown e => (Returned VUndefined, failed e s)
        | Returned path =>
            match uploadBytesResumable path image with
            | Thrown e => (Returned VUndefined, failed e s)
            | Returned _ =>
                match getDownloadURL path with
                | Thrown e => (Returned VUndefined, failed e (uploaded path image s))
                | Returned url =>
                    match updateRestaurantImageReference restaurantId (VString url)
                            (site_world s) with
                    | (Returned _, w') =>
                        (Returned (VString url),
                         {| site_world := w';
                            site_uploads := (site_uploads s ++ [(path, image)])%list |})
                    | (Thrown e, w') =>
                        (Returned VUndefined,
                         failed e {| site_world := w';
                                     site_uploads :=
                                       (site_uploads s ++ [(path, image)])%list |})
                    end
                end
            end
        end
    end.
Proof.
  unfold updateRestaurantImage, app_try, mbind, App_bind, pure, in_world,
    uploadImage, upload, mret, App_ret.
  destruct (truthy restaurantId); cbn [negb]; [|done].
  destruct (no_image image) as [[]|e]; cbn [outcome_bind]; [done| |done].
  unfold mbind, App_bind, pure.
  destruct (filePath restaurantId image) as [path|e]; [|done].
  destruct (uploadBytesResumable path image) as [[]|e]; [|done].
  destruct (getDownloadURL path) as [url|e]; [|done].
  cbn [site_world site_uploads].
  destruct (updateRestaurantImageReference _ _ _) as [[v|e] w']; done.
Qed.

Lemma updateRestaurantImage_cases (restaurantId image : value) (s : Site) :
  ∃ v s',
    updateRestaurantImage restaurantId image s = (Returned v, s') ∧
    listeners (site_world s') = listeners (site_world s) ∧
    ((∃ url path docRef o,
        v = VString url ∧
        filePath restaurantId image = Returned path ∧
        site_uploads s' = (site_uploads s ++ [(path, image)])%list ∧
        getDownloadURL path = Returned url ∧
        doc ["restaurants"] restaurantId [] = Returned docRef ∧
        db (site_world s') !! docRef = Some o ∧
        obj_get "photo" o = VString url ∧
        console (site_world s') = console (site_world s))
     ∨
     (∃ e,
        v = VUndefined ∧
        db (site_world s') = db (site_world s) ∧
        console (site_world s') =
          (console (site_world s) ++ [LogError "Error processing request:" e])%list ∧
        (site_uploads s' = site_uploads s ∨
         ∃ path, site_uploads s' = (site_uploads s ++ [(path, image)])%list))).
Proof.
  rewrite updateRestaurantImage_steps.
  assert (∀ e, ∃ v s',
    (Returned VUndefined, failed e s) = (Returned v, s') ∧
    listeners (site_world s') = listeners (site_world s) ∧
    ((∃ url path docRef o,
        v = VString url ∧
        filePath restaurantId image = Returned path ∧
        site_uploads s' = (site_uploads s ++ [(path, image)])%list ∧
        getDownloadURL path = Returned url ∧
        doc ["restaurants"] restaurantId [] = Returned docRef ∧
        db (site_world s') !! docRef = Some o ∧
        obj_get "photo" o = VString url ∧
        console (site_world s') = console (site_world s))
     ∨
     (∃ e,
        v = VUndefined ∧
        db (site_world s') = db (site_world s) ∧
        console (site_world s') =
          (console (site_world s) ++ [LogError "Error processing request:" e])%list ∧
        (site_uploads s' = site_uploads s ∨
         ∃ path, site_uploads s' = (site_uploads s ++ [(path, image)])%list)))) as Hfail.
  { intros e. eexists _, _. split; [reflexivity|]. split; [done|].
    right. exists e. repeat split. by left. }
  destruct (truthy restaurantId); cbn [negb]; [|apply Hfail].
  destruct (no_image image) as [[]|e]; [apply Hfail| |apply Hfail].
  destruct (filePath restaurantId image) as [path|e]; [|apply Hfail].
  destruct (uploadBytesResumable path image) as [[]|e]; [|apply Hfail].
  destruct (getDownloadURL path) as [url|e] eqn:Hurl.
  2: { eexists _, _. split; [reflexivity|]. split; [done|].
       right. exists e. repeat split. right. by exists path. }
  rewrite updateRestaurantImageReference_steps.
  destruct (doc ["restaurants"] restaurantId []) as [docRef|e].
  2: { eexists _, _. split; [reflexivity|]. split; [done|].
       right. exists e. repeat split. right. by exists path. }
  cbn [parse_value].
  destruct (db (site_world s) !! docRef) as [old|] eqn:Hold.
  2: { eexists _, _. split; [reflexivity|]. split; [done|].
       right. eexists. repeat split. right. by exists path. }
  eexists _, _. split; [reflexivity|]. split; [done|].
  left. exists url, path, docRef, (obj_set "photo" (VString url) old).
  repeat split; [done| |].
  - cbn. apply lookup_insert_eq.
  - apply obj_get_set_eq.
Qed.

(** X15. [updateRestaurantImage] never rejects, and it never touches the
    listeners. Either it returns the download URL: the file was then
    uploaded under the path made of the restaurant's id and the file's
    name, the URL is the one Storage gives for that path, the restaurant's
    document holds it under [photo], and nothing was written to the
    console. Or it returns [undefined]: the database is then as before, one
    error was written to the console, and the file was uploaded or not. *)
Theorem updateRestaurantImage_never_rejects (restaurantId image : value) (s : Site) :
  ∃ v s',
    updateRestaurantImage restaurantId image s = (Returned v, s') ∧
    listeners (site_world s') = listeners (site_world s) ∧
    ((∃ url path docRef o,
        v = VString url ∧
        filePath restaurantId image = Returned path ∧
        site_uploads s' = (site_uploads s ++ [(path, image)])%list ∧
        getDownloadURL path = Returned url ∧
        doc ["restaurants"] restaurantId [] = Returned docRef ∧
        db (site_world s') !! docRef = Some o ∧
        obj_get "photo" o = VString url ∧
        console (site_world s') = console (site_world s))
     ∨
     (∃ e,
        v = VUndefined ∧
        db (site_world s') = db (site_world s) ∧
        console (site_world s') =
          (console (site_world s) ++ [LogError "Error processing request:" e])%list ∧
        (site_uploads s' = site_uploads s ∨
         ∃ path, site_uploads s' = (site_uploads s ++ [(path, image)])%list))).
Proof. apply updateRestaurantImage_cases. Qed.

(** X16. Without a restaurant id, without a file, or with a file that has
    no name, [updateRestaurantImage] uploads nothing and writes nothing to
    the database: it writes the error it raised to the console and returns
    [undefined]. *)
Theorem updateRestaurantImage_invalid_input (restaurantId image : value) (s : Site) :
  truthy restaurantId = false ∨ no_image image = Returned true →
  updateRestaurantImage restaurantId image s =
    (Returned VUndefined,
     failed (Error (if truthy restaurantId
                    then "A valid image has not been provided."
                    else "No restaurant ID has been provided.")) s).
Proof.
  rewrite updateRestaurantImage_steps.
  destruct (truthy restaurantId); cbn [negb]; [|done].
  intros [Hid | ->]; done.
Qed.

(** X17. The upload and the update of the document are not one step. When
    the file is uploaded and has a URL but the restaurant has no document,
    [updateRestaurantImage] returns [undefined] with the store's
    [not-found] error on the console: the file stays uploaded and no
    document refers to it. *)
Theorem upload_without_restaurant_is_orphaned (restaurantId image : value)
    (path url : string) (docRef : Firestore.path) (s : Site) :
  truthy restaurantId = true →
  no_image image = Returned false →
  filePath restaurantId image = Returned path →
  uploadBytesResumable path image = Returned () →
  getDownloadURL path = Returned url →
  doc ["restaurants"] restaurantId [] = Returned docRef →
  db (site_world s) !! docRef = None →
  updateRestaurantImage restaurantId image s =
    (Returned VUndefined,
     failed (FirestoreError "not-found") (uploaded path image s)).
Proof.
  intros Hid Himg Hpath Hup Hurl Hdoc Hmissing.
  rewrite updateRestaurantImage_steps, Hid, Himg, Hpath, Hup, Hurl.
  rewrite updateRestaurantImageReference_steps, Hdoc. cbn [parse_value negb].
  by rewrite Hmissing.
Qed.
End Storage.

Definition example_site (d : store) : Site :=
  {| site_world := exampleWorld d 0; site_uploads := [] |}.

Definition example_image : value :=
  VObject [("name", VString "front.png"); ("size", VNumber 1024)].

(** A file for the example restaurant. *)
Lemma updateRestaurantImage_never_rejects_witness :
  ∃ v s',
    updateRestaurantImage (H := exampleRuntime) (H0 := exampleServices)
      (VString "R") example_image (example_site example_db) = (Returned v, s') ∧
    v = VString "https://storage.example/images/R/front.png" ∧
    site_uploads s' = [("images/R/front.png", example_image)].
Proof.
  destruct (updateRestaurantImage_never_rejects (H := exampleRuntime)
              (H0 := exampleServices) (VString "R") example_image
              (example_site example_db)) as (v & s' & Hrun & _).
  exists v, s'. split; [exact Hrun|].
  vm_compute in Hrun. injection Hrun as <- <-. split; reflexivity.
Defined.

(** No id; a file without a name. *)
Lemma updateRestaurantImage_invalid_input_witness :
  updateRestaurantImage (H := exampleRuntime) (H0 := exampleServices)
    (VString "") example_image (example_site example_db)
  = (Returned VUndefined,
     failed (Error "No restaurant ID has been provided.") (example_site example_db)) ∧
  updateRestaurantImage (H := exampleRuntime) (H0 := exampleServices)
    (VString "R") (VObject [("size", VNumber 1024)]) (example_site example_db)
  = (Returned VUndefined,
     failed (Error "A valid image has not been provided.") (example_site example_db)).
Proof.
  split.
  - apply (updateRestaurantImage_invalid_input (H := exampleRuntime)
             (H0 := exampleServices) (VString "") example_image).
    left. reflexivity.
  - apply (updateRestaurantImage_invalid_input (H := exampleRuntime)
             (H0 := exampleServices) (VString "R") (VObject [("size", VNumber 1024)])).
    right. reflexivity.
Defined.

(** A file for a restaurant that is not in the database. *)
Lemma upload_without_restaurant_is_orphaned_witness :
  updateRestaurantImage (H := exampleRuntime) (H0 := exampleServices)
    (VString "R") example_image (example_site ∅)
  = (Returned VUndefined,
     {| site_world :=
          {| db := ∅; listeners := [];
             console := [LogError "Error processing request:"
                           (FirestoreError "not-found")];
             clock := 0; newId := exampleIds; issued := 0 |};
        site_uploads := [("images/R/front.png", example_image)] |}).
Proof.
  apply (upload_without_restaurant_is_orphaned (H := exampleRuntime)
           (H0 := exampleServices) (VString "R") example_image
           "images/R/front.png" "https://storage.example/images/R/front.png"
           ["restaurants"; "R"] (example_site ∅)); reflexivity.
Defined.

(** ** [Restaurant.jsx]: [handleRestaurantImage] *)

(** X18. [handleRestaurantImage] with no file chosen leaves the state and
    everything else as they are. With a file, it hands the file to
    [updateRestaurantImage] and puts what that returns under [photo] in the
    state, every other field of the state being kept; when the upload or
    the update failed that is [undefined], so the photo shown is cleared
    although the database still holds the old one. *)
Theorem handleRestaurantImage_result `{Runtime} `{Services}
    (id restaurantDetails target image : value) (s : Site) :
  first_file target = Returned image →
  NoDup (own_props restaurantDetails).*1 →
  (truthy image = false →
   handleRestaurantImage id restaurantDetails target s
   = (Returned restaurantDetails, s)) ∧
  (truthy image = true →
   ∃ v s' o,
     updateRestaurantImage id image s = (Returned v, s') ∧
     handleRestaurantImage id restaurantDetails target s = (Returned (VObject o), s') ∧
     obj_get "photo" o = v ∧
     (∀ k, k ≠ "photo" → obj_get k o = obj_get k (own_props restaurantDetails)) ∧
     (v = VUndefined → db (site_world s') = db (site_world s))).
Proof.
  intros Hfile Hnd.
  unfold handleRestaurantImage, mbind, App_bind, pure. rewrite Hfile.
  split; intros ->; cbn [negb]; [done|].
  destruct (updateRestaurantImage_cases id image s) as (v & s' & Hrun & _ & Hcases).
  exists v, s'. eexists. rewrite Hrun. split; [done|]. split; [reflexivity|].
  split; [apply obj_get_set_eq|]. split.
  - intros k Hk. rewrite obj_get_set_ne by done.
    rewrite obj_get_assign by done.
    destruct (has_field k (own_props restaurantDetails)) eqn:Hhas; [done|].
    by rewrite (obj_get_no_field _ (own_props restaurantDetails)).
  - intros ->. destruct Hcases as [(url & ? & ? & ? & [=] & _)|(e & _ & Hdb & _)].
    done.
Qed.

(** A file for a restaurant that is not in the database: the state keeps
    its name and loses its photo. *)
Lemma handleRestaurantImage_result_witness :
  handleRestaurantImage (H := exampleRuntime) (H0 := exampleServices) (VString "R")
    (VObject [("name", VString "Chez Max"); ("photo", VString "https://img/0.png")])
    (VObject [("files", VArray [example_image])]) (example_site ∅)
  = (Returned (VObject [("name", VString "Chez Max"); ("photo", VUndefined)]),
     failed (FirestoreError "not-found")
       (uploaded "images/R/front.png" example_image (example_site ∅))) ∧
  ∃ v s' o,
    updateRestaurantImage (H := exampleRuntime) (H0 := exampleServices)
      (VString "R") example_image (example_site ∅) = (Returned v, s') ∧
    handleRestaurantImage (H := exampleRuntime) (H0 := exampleServices) (VString "R")
      (VObject [("name", VString "Chez Max"); ("photo", VString "https://img/0.png")])
      (VObject [("files", VArray [example_image])]) (example_site ∅)
    = (Returned (VObject o), s') ∧
    obj_get "photo" o = v ∧
    (∀ k, k ≠ "photo" →
          obj_get k o
          = obj_get k (own_props (VObject [("name", VString "Chez Max");
                                           ("photo", VString "https://img/0.png")]))) ∧
    (v = VUndefined → db (site_world s') = db (site_world (example_site ∅))).
Proof.
  split; [vm_compute; reflexivity|].
  apply (handleRestaurantImage_result (H := exampleRuntime) (H0 := exampleServices)
           (VString "R")
           (VObject [("name", VString "Chez Max"); ("photo", VString "https://img/0.png")])
           (VObject [("files", VArray [example_image])]) example_image (example_site ∅)).
  - reflexivity.
  - apply (bool_decide_unpack _). vm_compute. reflexivity.
  - reflexivity.
Defined.

(** ** [ReviewSummary.jsx]: [GeminiSummary] *)

Lemma plain_docs_array (docs : list DocumentSnapshot) (v : value) :
  plain_docs docs = Returned v → ∃ items, v = VArray items.
Proof.
  unfold plain_docs, mbind, outcome_bind.
  destruct (map_docs plain_doc docs) as [items|]; [|done].
  intros [= <-]. by eexists.
Qed.

Lemma getReviewsByRestaurantId_returned `{QueryEngine}
    (restaurantId v : value) (w w' : World) :
  getReviewsByRestaurantId restaurantId w = (Returned v, w') →
  (truthy restaurantId = false ∧ v = VUndefined) ∨
  (∃ items, v = VArray items ∧ w' = w).
Proof.
  unfold getReviewsByRestaurantId.
  destruct (truthy restaurantId); cbn [negb].
  - unfold mbind, IO_bind, eval, getDocs.
    destruct (collection (VString "restaurants") [restaurantId; VString "ratings"]);
      cbn [outcome_bind query]; [|done].
    intros [= Hv <-]. right. apply plain_docs_array in Hv as [items ->].
    by exists items.
  - intros [= <- _]. by left.
Qed.

Section Summary.
Context `{Runtime} `{Services} `{QueryEngine}.

(** X19. With a falsy restaurant id the component does not render its
    error paragraph: [getReviewsByRestaurantId] logs its message and
    returns [undefined], and the prompt, which is built before the [try]
    block, reads [reviews.map], so the component rejects with a
    [TypeError]. *)
Theorem GeminiSummary_without_id_rejects (restaurantId : value) (s : Site) :
  getAuthenticatedAppForUser = Returned () →
  truthy restaurantId = false →
  GeminiSummary restaurantId s =
    (Thrown (TypeError "Cannot read properties of undefined (reading 'map')"),
     {| site_world :=
          {| db := db (site_world s); listeners := listeners (site_world s);
             console := (console (site_world s) ++
                         [Log "Error: Invalid restaurantId received: "
                            (Some restaurantId)])%list;
             clock := clock (site_world s); newId := newId (site_world s);
             issued := issued (site_world s) |};
        site_uploads := site_uploads s |}).
Proof.
  intros Hauth Hid.
  unfold GeminiSummary, mbind, App_bind, pure, in_world, getReviewsByRestaurantId.
  rewrite Hauth, Hid. reflexivity.
Qed.

(** X20. What [GeminiSummary] renders. The summary block is rendered only
    when the API key is set and the generation client answered, and its
    text is that answer to the prompt made of the [text] of the reviews
    joined by [@]; nothing is written to the console then. In every other
    case that renders, it is the error paragraph, with the error on the
    console. The database and the listeners are never changed. *)
Theorem GeminiSummary_renders (restaurantId : value) (s s' : Site) (el : element) :
  GeminiSummary restaurantId s = (Returned el, s') →
  db (site_world s') = db (site_world s) ∧
  listeners (site_world s') = listeners (site_world s) ∧
  ((∃ items texts joined text,
      el = SummaryBlock text ∧
      truthy GEMINI_API_KEY = true ∧
      getReviewsByRestaurantId restaurantId (site_world s)
      = (Returned (VArray items), site_world s) ∧
      review_texts items = Returned texts ∧
      join reviewSeparator texts = Returned joined ∧
      generate (prompt_text joined) = Returned text ∧
      s' = s)
   ∨
   (∃ e,
      el = ErrorParagraph ∧
      (truthy GEMINI_API_KEY = false ∨ ∃ prompt, generate prompt = Thrown e) ∧
      console (site_world s') = (console (site_world s) ++ [LogError "" e])%list)).
Proof.
  unfold GeminiSummary, mbind at 1 2 3, App_bind at 1 2 3, pure at 1 2, in_world at 1.
  destruct getAuthenticatedAppForUser as [[]|]; [|done].
  destruct (getReviewsByRestaurantId restaurantId (site_world s)) as [[reviews|] w1] eqn:Hget;
    [|done].
  destruct (getReviewsByRestaurantId_returned _ _ _ _ Hget)
    as [[_ ->]|(items & -> & ->)]; [done|].
  cbn [build_prompt]. unfold mbind at 1 2, outcome_bind at 1 2.
  destruct (review_texts items) as [texts|] eqn:Htexts; [|done].
  destruct (join reviewSeparator texts) as [joined|] eqn:Hjoin; [|done].
  cbn [site_world site_uploads].
  unfold app_try, mbind, App_bind, pure, in_world, console_error, mret, App_ret.
  destruct (truthy GEMINI_API_KEY) eqn:Hkey; cbn [negb].
  - destruct (generate (prompt_text joined)) as [text|e] eqn:Hgen.
    + intros [= <- <-]. cbn [site_world]. split; [done|]. split; [done|].
      left. exists items, texts, joined, text. repeat split; try done.
      by destruct s.
    + intros [= <- <-]. cbn [site_world db listeners console].
      split; [done|]. split; [done|]. right. exists e.
      split; [done|]. split; [|done]. right. by eexists.
  - intros [= <- <-]. cbn [site_world db listeners console].
    split; [done|]. split; [done|]. right. eexists.
    split; [done|]. split; [by left|done].
Qed.
End Summary.

(** The reviews of a restaurant, and no API key. *)
Lemma GeminiSummary_without_id_rejects_witness :
  GeminiSummary (H := exampleRuntime) (H0 := exampleServices) (H1 := exampleEngine)
    VUndefined (example_site example_reviews)
  = (Thrown (TypeError "Cannot read properties of undefined (reading 'map')"),
     {| site_world :=
          {| db := example_reviews; listeners := [];
             console := [Log "Error: Invalid restaurantId received: "
                           (Some VUndefined)];
             clock := 0; newId := exampleIds; issued := 0 |};
        site_uploads := [] |}).
Proof.
  apply (GeminiSummary_without_id_rejects (H := exampleRuntime)
           (H0 := exampleServices) (H1 := exampleEngine)
           VUndefined (example_site example_reviews)); reflexivity.
Defined.

Lemma GeminiSummary_renders_witness :
  ∃ s', GeminiSummary (H := exampleRuntime) (H0 := exampleServices)
          (H1 := exampleEngine) (VString "R") (example_site example_reviews)
        = (Returned ErrorParagraph, s') ∧
        db (site_world s') = db (site_world (example_site example_reviews)) ∧
        listeners (site_world s')
        = listeners (site_world (example_site example_reviews)).
Proof.
  eexists. split; [vm_compute; reflexivity|].
  pose proof (GeminiSummary_renders (H := exampleRuntime) (H0 := exampleServices)
                (H1 := exampleEngine) (VString "R") (example_site example_reviews)
                _ ErrorParagraph ltac:(vm_compute; reflexivity)) as (Hdb & Hl & _).
  exact (conj Hdb Hl).
Defined.

(** ** Reading once and watching *)

(** X21. The watches deliver what the reads return. Where [getRestaurants]
    returns an array for some filters, [getRestaurantsSnapshot] with a
    callable observer and the same filters attaches one listener on a query
    whose callback, run on the result of that query, calls the observer
    once with that array; and likewise for [getReviewsByRestaurantId] and
    [getReviewsSnapshotByRestaurantId] with the same restaurant id. *)
Theorem watch_delivers_what_read_returns `{QueryEngine} (w : World) (f : fn) :
  (∀ filters v,
     getRestaurants DbInstance filters w = (Settled (Returned v), w) →
     ∃ q w',
       getRestaurantsSnapshot (VFunction f) filters w
       = (Returned (VFunction (Unsubscribe (length (listeners w)))), w') ∧
       listeners w' =
         (listeners w ++ [{| l_target := QueryTarget q;
                             l_handler := RestaurantsHandler (VFunction f) |}])%list ∧
       run_handler (RestaurantsHandler (VFunction f)) (QuerySnap (execute (db w) q))
       = Returned [Call f v]) ∧
  (∀ restaurantId v,
     truthy restaurantId = true →
     getReviewsByRestaurantId restaurantId w = (Returned v, w) →
     ∃ q w',
       getReviewsSnapshotByRestaurantId restaurantId (VFunction f) w
       = (Returned (VFunction (Unsubscribe (length (listeners w)))), w') ∧
       listeners w' =
         (listeners w ++ [{| l_target := QueryTarget q;
                             l_handler := ReviewsHandler (VFunction f) |}])%list ∧
       run_handler (ReviewsHandler (VFunction f)) (QuerySnap (execute (db w) q))
       = Returned [Call f v]).
Proof.
  split.
  - intros filters v. unfold getRestaurants, getRestaurantsSnapshot.
    change (negb (String.eqb (typeof (VFunction f)) "function")) with false.
    cbv beta iota. unfold mbind, IO_bind, eval, getDocs, onSnapshot.
    destruct (outcome_bind _ _ _ (collection (VString "restaurants") [])) as [q|];
      [|done].
    intros [= Hv]. exists q. eexists. split; [reflexivity|]. split; [done|].
    revert Hv. unfold plain_docs, run_handler, mbind, outcome_bind.
    destruct (map_docs plain_doc (execute (db w) q)); [|done].
    by intros [= <-].
  - intros restaurantId v Hid.
    unfold getReviewsByRestaurantId, getReviewsSnapshotByRestaurantId.
    rewrite Hid. cbn [negb]. unfold mbind, IO_bind, eval, getDocs, onSnapshot.
    destruct (outcome_bind _ _ _ (collection (VString "restaurants") _)) as [q|];
      [|done].
    intros [= Hv]. exists q. eexists. split; [reflexivity|]. split; [done|].
    revert Hv. unfold plain_docs, run_handler, mbind, outcome_bind.
    destruct (map_docs plain_doc (execute (db w) q)); [|done].
    by intros [= <-].
Qed.

(** X22. The prompt does not escape the separator: a single review whose
    text holds an [@] gives [GeminiSummary] the same prompt as the two
    reviews that the [@] splits it into. *)
Theorem prompt_does_not_escape_separator `{Runtime} (a b : string) :
  build_prompt (VArray [VObject [("text", VString (a ++ reviewSeparator ++ b))]])
  = build_prompt (VArray [VObject [("text", VString a)];
                          VObject [("text", VString b)]]) ∧
  build_prompt (VArray [VObject [("text", VString a)]; VObject [("text", VString b)]])
  = Returned (prompt_text (a ++ "@" ++ b)).
Proof. split; reflexivity. Qed.
